(** * Hartkey: the polling coordinator and its parsers

    A shallow embedding of [custom_components/hartkey/coordinator.py] and of
    [_is_valid_intercom] from [button.py], with the properties of the
    refresh cycle, of the two fetchers and of the two parsers.

    Conventions.
    - A decoded response body is a [json] value: what [response.json()]
      gives in Python ([None], [bool], [int], [str], [list], [dict]).
      Floating-point numbers are outside the model.
    - A Python [dict] decoded from JSON is kept as the list of its items in
      insertion order; [dict_get] reads the binding of a key.
    - Exceptions are values of [exn]; a computation that may raise returns a
      [result].  Only exceptions deriving from [Exception] are modelled
      (task cancellation is not).
    - Log calls have no effect on the results and are left out. *)

From Stdlib Require Import ZArith List Ascii String DecimalString.
From stdpp Require Import gmap strings list fin_maps.

Local Open Scope string_scope.
Local Open Scope Z_scope.
Local Open Scope list_scope.

(** ** const.py *)

Definition API_URL_DEVICES : string :=
  "https://household.key.rt.ru/api/v2/app/devices/intercom".
Definition API_URL_EVENTS : string :=
  "https://events.key.rt.ru/api/v2/events/list".

Definition EVENT_TYPES : list string :=
  [ "api_open_remote"; "face_open_remote"; "pin_code_open_remote";
    "code_open_local"; "rfid_open_local"; "dtmf_open_local" ].

Definition DEVICE_TYPE_INTERCOM : string := "intercom".
Definition DEVICE_TYPE_GATE : string := "gate".

(** ** Python values *)

#[warnings="-register-all"]
Inductive json : Type :=
  | JNull
  | JBool (b : bool)
  | JInt (n : Z)
  | JStr (s : string)
  | JList (l : list json)
  | JDict (d : list (string * json)).

(** [key in d] and [d[key]] on a dict. *)
Fixpoint dict_get (key : string) (d : list (string * json)) : option json :=
  match d with
  | [] => None
  | (k, v) :: rest => if String.eqb k key then Some v else dict_get key rest
  end.

(** [d.get(key, dflt)]; [d.get(key)] is [py_get key d] with [None]. *)
Definition py_get_default (key : string) (dflt : json)
    (d : list (string * json)) : json :=
  match dict_get key d with
  | Some v => v
  | None => dflt
  end.

Definition py_get (key : string) (d : list (string * json)) : json :=
  py_get_default key JNull d.

(** Truth value of an object, as tested by [if x:]. *)
Definition py_truthy (v : json) : bool :=
  match v with
  | JNull => false
  | JBool b => b
  | JInt n => negb (n =? 0)
  | JStr s => negb (String.eqb s "")
  | JList l => match l with [] => false | _ => true end
  | JDict d => match d with [] => false | _ => true end
  end.

(** [v == s] for a string [s]: only a string equals a string. *)
Definition py_eq_str (v : json) (s : string) : bool :=
  match v with
  | JStr s' => String.eqb s' s
  | _ => false
  end.

(** [v is True]. *)
Definition py_is_True (v : json) : bool :=
  match v with
  | JBool true => true
  | _ => false
  end.

(** [type(v).__name__]. *)
Definition type_name (v : json) : string :=
  match v with
  | JNull => "NoneType"
  | JBool _ => "bool"
  | JInt _ => "int"
  | JStr _ => "str"
  | JList _ => "list"
  | JDict _ => "dict"
  end.

(** [str(n)] for an integer. *)
Definition str_of_int (n : Z) : string :=
  NilZero.string_of_int (Z.to_int n).

Fixpoint join (sep : string) (parts : list string) : string :=
  match parts with
  | [] => ""
  | [p] => p
  | p :: rest => p +:+ sep +:+ join sep rest
  end.

(** [repr] of a string: single quotes unless the text holds a single quote
    and no double quote; backslash, the chosen quote and control characters
    are escaped.  Bytes above 127 (UTF-8 text) are kept as they are. *)
Fixpoint string_mem (c : ascii) (s : string) : bool :=
  match s with
  | EmptyString => false
  | String c' s' => Ascii.eqb c c' || string_mem c s'
  end.

Definition hex_digit (n : N) : ascii :=
  Ascii.ascii_of_N (if (n <? 10)%N then 48 + n else 87 + n)%N.

Definition escape_char (quote c : ascii) : string :=
  let n := Ascii.N_of_ascii c in
  if Ascii.eqb c quote || Ascii.eqb c "\"%char
  then String "\"%char (String c EmptyString)
  else if (n =? 9)%N then "\t"
  else if (n =? 10)%N then "\n"
  else if (n =? 13)%N then "\r"
  else if (n <? 32)%N || (n =? 127)%N
  then "\x" +:+ String (hex_digit (n / 16)) (String (hex_digit (n mod 16)) EmptyString)
  else String c EmptyString.

Fixpoint escape_string (quote : ascii) (s : string) : string :=
  match s with
  | EmptyString => EmptyString
  | String c s' => escape_char quote c +:+ escape_string quote s'
  end.

Definition double_quote : ascii := Ascii.ascii_of_nat 34.

Definition repr_str (s : string) : string :=
  let quote : ascii :=
    if string_mem "'"%char s && negb (string_mem double_quote s)
    then double_quote else "'"%char in
  String quote (escape_string quote s) +:+ String quote EmptyString.

(** [repr(v)]. *)
Fixpoint py_repr (v : json) : string :=
  match v with
  | JNull => "None"
  | JBool true => "True"
  | JBool false => "False"
  | JInt n => str_of_int n
  | JStr s => repr_str s
  | JList l => "[" +:+ join ", " (map py_repr l) +:+ "]"
  | JDict d =>
      "{" +:+ join ", "
        (map (fun kv : string * json =>
                let '(k, x) := kv in repr_str k +:+ ": " +:+ py_repr x) d)
      +:+ "}"
  end.

(** [str(v)]: the text itself for a string, [repr] otherwise. *)
Definition py_str (v : json) : string :=
  match v with
  | JStr s => s
  | _ => py_repr v
  end.

(** ** Exceptions *)

Inductive exn : Type :=
  | ClientError (msg : string)      (* aiohttp.ClientError and subclasses *)
  | TimeoutError                    (* asyncio.TimeoutError *)
  | UpdateFailed (msg : string)     (* homeassistant UpdateFailed *)
  | AttributeError (msg : string)
  | TypeError (msg : string)
  | OtherException (msg : string).  (* any other subclass of Exception *)

(** [str(err)]. *)
Definition exn_str (e : exn) : string :=
  match e with
  | ClientError msg | UpdateFailed msg | AttributeError msg
  | TypeError msg | OtherException msg => msg
  | TimeoutError => ""
  end.

Inductive result (A : Type) : Type :=
  | Ok (a : A)
  | Raise (e : exn).
Arguments Ok {A} a.
Arguments Raise {A} e.

(** [x.get] on an object that is not a dict. *)
Definition no_attribute_get (v : json) : exn :=
  AttributeError ("'" +:+ type_name v +:+ "' object has no attribute 'get'").

(** ** The parsers of coordinator.py *)

(** [v in [DEVICE_TYPE_INTERCOM, DEVICE_TYPE_GATE]]. *)
Definition is_door_type (v : json) : bool :=
  py_eq_str v DEVICE_TYPE_INTERCOM || py_eq_str v DEVICE_TYPE_GATE.

(** The condition of the comprehension of [_parse_devices]. *)
Definition is_valid_device (device : json) : bool :=
  match device with
  | JDict d => is_door_type (py_get "device_type" d)
  | _ => false
  end.

(** The list the comprehension of [_parse_devices] runs over. *)
Definition payload_devices (d : list (string * json)) : list json :=
  match dict_get "data" d with
  | Some (JDict data_content) =>
      match dict_get "devices" data_content with
      | Some (JList l) => l
      | _ => []
      end
  | _ => []
  end.

Definition _parse_devices (data : json) : result (list json) :=
  match data with
  | JDict d => Ok (List.filter is_valid_device (payload_devices d))
  | _ =>
      Raise (UpdateFailed ("Expected dictionary response, got <class '"
                           +:+ type_name data +:+ "'>"))
  end.

(** [events_list] of [_parse_events]. *)
Definition events_list (d : list (string * json)) : list json :=
  match dict_get "data" d with
  | Some (JDict data_content) =>
      match dict_get "items" data_content with
      | Some (JList l) => l
      | _ => []
      end
  | _ => []
  end.

(** One turn of the loop of [_parse_events]. *)
Definition add_event (events_by_device : gmap string (list json))
    (event : json) : gmap string (list json) :=
  match event with
  | JDict e =>
      let device_id := py_get "device_id" e in
      if py_truthy device_id then
        let device_id_str := py_str device_id in
        let with_key :=
          match events_by_device !! device_id_str with
          | None => <[device_id_str := []]> events_by_device
          | Some _ => events_by_device
          end in
        alter (fun evs => evs ++ [event]) device_id_str with_key
      else events_by_device
  | _ => events_by_device
  end.

(** Nothing in the [try] block of [_parse_events] can raise, so its handler
    is never entered. *)
Definition _parse_events (data : json) : gmap string (list json) :=
  match data with
  | JDict d => fold_left add_event (events_list d) ∅
  | _ => ∅
  end.

(** ** button.py *)

(** The objects a [for] loop over [v] visits: the elements of a list, the
    keys of a dict, the characters of a string; other values are not
    iterable. *)
Fixpoint chars (s : string) : list json :=
  match s with
  | EmptyString => []
  | String c s' => JStr (String c EmptyString) :: chars s'
  end.

Definition py_iter (v : json) : result (list json) :=
  match v with
  | JList l => Ok l
  | JDict d => Ok (map (fun kv : string * json => JStr (fst kv)) d)
  | JStr s => Ok (chars s)
  | _ => Raise (TypeError ("'" +:+ type_name v +:+ "' object is not iterable"))
  end.

(** The loop of [_is_valid_intercom]: it returns at the first capability
    named open_door whose [setup] is the object [True]. *)
Fixpoint open_door_loop (capabilities : list json) : result bool :=
  match capabilities with
  | [] => Ok false
  | JDict capability :: rest =>
      if py_eq_str (py_get "name" capability) "open_door"
         && py_is_True (py_get "setup" capability)
      then Ok true
      else open_door_loop rest
  | v :: _ => Raise (no_attribute_get v)
  end.

Definition _is_valid_intercom (device : list (string * json)) : result bool :=
  if negb (is_door_type (py_get "device_type" device)) then Ok false
  else
    match py_iter (py_get_default "capabilities" (JList []) device) with
    | Ok capabilities => open_door_loop capabilities
    | Raise e => Raise e
    end.

(** The loop of [async_setup_entry]: the devices for which a button is
    created, in order.  Elements that are not records are skipped. *)
Fixpoint buttons_loop (devices : list json) : result (list json) :=
  match devices with
  | [] => Ok []
  | JDict device :: rest =>
      match _is_valid_intercom device with
      | Ok valid =>
          match buttons_loop rest with
          | Ok buttons =>
              Ok (if valid then JDict device :: buttons else buttons)
          | Raise e => Raise e
          end
      | Raise e => Raise e
      end
  | _ :: rest => buttons_loop rest
  end.

(** ** The network *)

(** A GET request: [session.get(url, headers=headers, params=params)]. *)
Record request : Type := {
  req_url : string;
  req_headers : list (string * string);
  req_params : list (string * json);
}.

(** What the client sees of a response.  [await response.json()] and
    [await response.text()] may themselves raise (a body that is not JSON,
    a connection lost, the time bound of the enclosing block). *)
Record response : Type := {
  resp_status : Z;
  resp_json : result json;
  resp_text : result string;
}.

(** The surroundings of one refresh cycle: the clock, the library's
    rendering of an instant with [strftime("%Y-%m-%dT%H:%M:%SZ")], and the
    outcome of [session.get], which raises or gives a response. *)
Record env : Type := {
  utcnow : Z;
  strftime : Z -> string;
  session_get : request -> result response;
}.

(** ** The coordinator object *)

(** The dict [{"devices": devices, "events": events}] built by a cycle. *)
Record snapshot : Type := {
  snap_devices : list json;
  snap_events : gmap string (list json);
}.

(** [async_setup_entry] of button.py, given [coordinator.data]: the devices
    of the buttons handed to [async_add_entities]; none when it returns
    early. *)
Definition async_setup_entry (data : option snapshot) : result (list json) :=
  match data with
  | None => Ok []
  | Some s =>
      if negb (py_truthy (JList (snap_devices s))) then Ok []
      else buttons_loop (snap_devices s)
  end.

(** Snapshots are objects: a reference is the position of the object in
    the store, in order of creation. *)
Definition loc : Type := nat.

Record coordinator : Type := {
  bearer_token : string;
  devices : list json;
  _update_interval : Z;
  _last_successful_data : option loc;     (* [None] is Python's None *)
}.

Record world : Type := {
  self : coordinator;
  objects : list snapshot;     (* the snapshot objects created so far *)
  calls : list request;        (* the network calls issued so far *)
}.

Definition __init__ (bearer_token : string) (update_interval : Z) : world :=
  {| self := {| bearer_token := bearer_token;
                devices := [];
                _update_interval := update_interval;
                _last_successful_data := None |};
     objects := [];
     calls := [] |}.

(** ** Computations that read and write the world and may raise *)

Definition M (A : Type) : Type := world -> result A * world.

Definition ret {A} (a : A) : M A := fun w => (Ok a, w).
Definition raise {A} (e : exn) : M A := fun w => (Raise e, w).

Definition bind {A B} (m : M A) (k : A -> M B) : M B :=
  fun w =>
    match m w with
    | (Ok a, w1) => k a w1
    | (Raise e, w1) => (Raise e, w1)
    end.

(** [try: body  except Exception as err: handler err]. *)
Definition try_except {A} (body : M A) (handler : exn -> M A) : M A :=
  fun w =>
    match body w with
    | (Ok a, w1) => (Ok a, w1)
    | (Raise e, w1) => handler e w1
    end.

Definition lift {A} (r : result A) : M A := fun w => (r, w).

Notation "x <- m ;; k" := (bind m (fun x => k))
  (at level 100, m at next level, right associativity).
Notation "m ;;; k" := (bind m (fun _ => k))
  (at level 100, right associativity).

Definition get_self : M coordinator := fun w => (Ok (self w), w).

(** [self.devices = devices]. *)
Definition set_devices (devices' : list json) : M unit :=
  fun w =>
    (Ok tt,
     {| self := {| bearer_token := bearer_token (self w);
                   devices := devices';
                   _update_interval := _update_interval (self w);
                   _last_successful_data := _last_successful_data (self w) |};
        objects := objects w;
        calls := calls w |}).

(** [self._last_successful_data = result]. *)
Definition set_last_successful_data (r : loc) : M unit :=
  fun w =>
    (Ok tt,
     {| self := {| bearer_token := bearer_token (self w);
                   devices := devices (self w);
                   _update_interval := _update_interval (self w);
                   _last_successful_data := Some r |};
        objects := objects w;
        calls := calls w |}).

(** A dict display creates a new object. *)
Definition new_snapshot (s : snapshot) : M loc :=
  fun w =>
    (Ok (length (objects w)),
     {| self := self w; objects := objects w ++ [s]; calls := calls w |}).

(** The world once request [rq] has been issued. *)
Definition log_call (rq : request) (w : world) : world :=
  {| self := self w; objects := objects w; calls := calls w ++ [rq] |}.

(** [async with session.get(...) as response]: the call is issued, and
    raises or gives its response. *)
Definition http_get (net : env) (rq : request) : M response :=
  fun w => (session_get net rq, log_call rq w).

(** ** The fetchers *)

Definition devices_request (headers : list (string * string)) : request :=
  {| req_url := API_URL_DEVICES; req_headers := headers; req_params := [] |}.

Definition _fetch_devices (net : env) (headers : list (string * string))
    : M (list json) :=
  response <- http_get net (devices_request headers) ;;
  if resp_status response =? 200 then
    data <- lift (resp_json response) ;;
    lift (_parse_devices data)
  else if resp_status response =? 401 then
    raise (UpdateFailed "Invalid authentication")
  else
    text <- lift (resp_text response) ;;
    raise (UpdateFailed ("API error: " +:+ str_of_int (resp_status response))).

(** The first loop of [_fetch_events]; [device.get] raises on an element
    that is not a dict. *)
Fixpoint collect_device_ids (devices : list json) : result (list string) :=
  match devices with
  | [] => Ok []
  | JDict device :: rest =>
      let device_id := py_get "id" device in
      match collect_device_ids rest with
      | Ok ids =>
          if py_truthy device_id
             && is_door_type (py_get "device_type" device)
          then Ok (py_str device_id :: ids)
          else Ok ids
      | Raise e => Raise e
      end
  | v :: _ => Raise (no_attribute_get v)
  end.

Definition events_params (net : env) (device_ids : list string)
    : list (string * json) :=
  let end_time := utcnow net in
  let start_time := end_time - 7 * 86400 in
  [ ("begin_raised_at", JStr (strftime net start_time));
    ("end_raised_at", JStr (strftime net end_time));
    ("device_ids", JStr (join "," device_ids));
    ("event_types", JStr (join "," EVENT_TYPES));
    ("sort_by", JStr "raised_at");
    ("sort_order", JStr "desc");
    ("offset", JInt 0);
    ("limit", JInt 100) ].

Definition events_request (headers : list (string * string))
    (params : list (string * json)) : request :=
  {| req_url := API_URL_EVENTS; req_headers := headers; req_params := params |}.

Definition _fetch_events (net : env) (headers : list (string * string))
    (devices : list json) : M (gmap string (list json)) :=
  if negb (py_truthy (JList devices)) then ret ∅
  else
    device_ids <- lift (collect_device_ids devices) ;;
    match device_ids with
    | [] => ret ∅
    | _ =>
        let params := events_params net device_ids in
        try_except
          (response <- http_get net (events_request headers params) ;;
           if resp_status response =? 200 then
             data <- lift (resp_json response) ;;
             ret (_parse_events data)
           else if resp_status response =? 400 then
             error_data <- lift (resp_json response) ;;
             ret ∅
           else
             text <- lift (resp_text response) ;;
             ret ∅)
          (fun err =>
             match err with
             | TimeoutError => ret ∅
             | _ => ret ∅
             end)
    end.

(** ** The refresh cycle *)

(** The fallback of the three handlers: [self._last_successful_data] is
    [None] or a two-key dict, so it is true exactly when it is set. *)
Definition last_or_raise (failure : exn) : M loc :=
  me <- get_self ;;
  match _last_successful_data me with
  | Some last => ret last
  | None => raise failure
  end.

Definition auth_headers (bearer_token : string) : list (string * string) :=
  [("Authorization", "Bearer " +:+ bearer_token)].

Definition _async_update_data (net : env) : M loc :=
  me <- get_self ;;
  let headers := auth_headers (bearer_token me) in
  try_except
    (devices <- _fetch_devices net headers ;;
     set_devices devices ;;;
     events <- _fetch_events net headers devices ;;
     result <- new_snapshot {| snap_devices := devices;
                               snap_events := events |} ;;
     set_last_successful_data result ;;;
     ret result)
    (fun err =>
       match err with
       | ClientError _ =>
           last_or_raise
             (UpdateFailed ("Error communicating with API: " +:+ exn_str err))
       | TimeoutError =>
           last_or_raise (UpdateFailed "Timeout communicating with API")
       | _ =>
           last_or_raise (UpdateFailed ("Unexpected error: " +:+ exn_str err))
       end).

(** * Vocabulary of the statements *)

(** ** Parsed data *)

(** A device record of one of the two door types. *)
Definition door_device (device : json) : Prop :=
  exists d, device = JDict d /\
    (py_get "device_type" d = JStr DEVICE_TYPE_INTERCOM \/
     py_get "device_type" d = JStr DEVICE_TYPE_GATE).

(** [retained P l out]: [out] is [l] with exactly the elements that do not
    satisfy [P] struck out, the others kept in place. *)
Inductive retained {A} (P : A -> Prop) : list A -> list A -> Prop :=
  | retained_nil : retained P [] []
  | retained_keep x l out :
      P x -> retained P l out -> retained P (x :: l) (x :: out)
  | retained_drop x l out :
      ~ P x -> retained P l out -> retained P (x :: l) out.

(** The key under which the loop of [_parse_events] files an event, if it
    files it at all. *)
Definition event_key (event : json) : option string :=
  match event with
  | JDict e =>
      if py_truthy (py_get "device_id" e)
      then Some (py_str (py_get "device_id" e))
      else None
  | _ => None
  end.

(** The events of a payload: the list the loop of [_parse_events] runs
    over, empty when the body is not a mapping. *)
Definition payload_events (data : json) : list json :=
  match data with
  | JDict d => events_list d
  | _ => []
  end.

(** [carries k event]: the event is a mapping whose [device_id] is true and
    reads [k] as a string. *)
Definition carries (k : string) (event : json) : Prop :=
  exists e, event = JDict e /\
    py_truthy (py_get "device_id" e) = true /\
    py_str (py_get "device_id" e) = k.

(** ** Fetches and cycles *)

(** What a computation returns, and the world it leaves. *)
Definition outcome {A} (m : M A) (w : world) : result A := fst (m w).
Definition after {A} (m : M A) (w : world) : world := snd (m w).

(** A value that is a record (a Python dict). *)
Definition is_record (v : json) : Prop := exists d, v = JDict d.

(** A device record from which [_fetch_events] takes an id. *)
Definition has_valid_id (device : json) : Prop :=
  exists d, device = JDict d /\
    py_truthy (py_get "id" d) = true /\
    is_door_type (py_get "device_type" d) = true.

(** The mapping [_fetch_events] returns once it has decided to call the
    network, read off the reply. *)
Definition events_of_reply (reply : result response)
    : gmap string (list json) :=
  match reply with
  | Ok resp =>
      if resp_status resp =? 200 then
        match resp_json resp with
        | Ok data => _parse_events data
        | Raise _ => ∅
        end
      else ∅
  | Raise _ => ∅
  end.

(** The failure a cycle reports for an error [err] when it has nothing to
    fall back on. *)
Definition failure_of (err : exn) : exn :=
  match err with
  | ClientError _ =>
      UpdateFailed ("Error communicating with API: " +:+ exn_str err)
  | TimeoutError => UpdateFailed "Timeout communicating with API"
  | _ => UpdateFailed ("Unexpected error: " +:+ exn_str err)
  end.

(** The coordinator after a successful cycle. *)
Definition published (devs : list json) (r : loc) (me : coordinator)
    : coordinator :=
  {| bearer_token := bearer_token me;
     devices := devs;
     _update_interval := _update_interval me;
     _last_successful_data := Some r |}.

(** The caller keeps the value a cycle returns, and keeps the one it had
    when the cycle raises: the second component is the snapshot it holds. *)
Definition refresh (net : env) (st : world * option loc)
    : world * option loc :=
  match _async_update_data net (fst st) with
  | (Ok r, w') => (w', Some r)
  | (Raise _, w') => (w', snd st)
  end.

Definition start (bearer_token : string) (update_interval : Z)
    : world * option loc :=
  (__init__ bearer_token update_interval, None).

Definition run (nets : list env) (st : world * option loc)
    : world * option loc :=
  fold_left (fun st net => refresh net st) nets st.

(** [from_cycle token net s]: both parts of snapshot [s] are what the two
    fetchers give in the one cycle whose surroundings are [net]. *)
Definition from_cycle (token : string) (net : env) (s : snapshot) : Prop :=
  forall w0,
    outcome (_fetch_devices net (auth_headers token)) w0
      = Ok (snap_devices s) /\
    outcome (_fetch_events net (auth_headers token) (snap_devices s)) w0
      = Ok (snap_events s).

(** What holds between cycles. *)
Definition consistent (token : string) (st : world * option loc) : Prop :=
  bearer_token (self (fst st)) = token /\
  _last_successful_data (self (fst st)) = snd st /\
  (forall r, snd st = Some r -> is_Some (objects (fst st) !! r)) /\
  Forall (fun s => exists net, from_cycle token net s) (objects (fst st)).

(** The body has the nested device list: a mapping under "data" holding a
    list under "devices". *)
Definition has_device_list (d : list (string * json)) : Prop :=
  exists data_content l,
    dict_get "data" d = Some (JDict data_content) /\
    dict_get "devices" data_content = Some (JList l).

(** A capability record named open_door whose [setup] is [True]. *)
Definition open_door_set_up (capability : json) : Prop :=
  exists c, capability = JDict c /\
    py_get "name" c = JStr "open_door" /\
    py_get "setup" c = JBool true.

(** ** Replies used in the examples *)

Definition reply (status : Z) (body : json) : response :=
  {| resp_status := status; resp_json := Ok body; resp_text := Ok "" |}.

(** Surroundings in which the device call and the event call get the
    given outcomes. *)
Definition net_of (devices_reply events_reply : result response) : env :=
  {| utcnow := 0;
     strftime := fun _ => "";
     session_get := fun rq =>
       if String.eqb (req_url rq) API_URL_DEVICES
       then devices_reply else events_reply |}.

Definition one_gate : json :=
  JDict [("data", JDict [("devices", JList
    [JDict [("id", JInt 7); ("device_type", JStr "gate")]])])].

Definition one_event : json :=
  JDict [("data", JDict [("items", JList [JDict [("device_id", JInt 7)]])])].

Definition net_good : env :=
  net_of (Ok (reply 200 one_gate)) (Ok (reply 200 one_event)).

Definition net_401 : env :=
  net_of (Ok (reply 401 JNull)) (Ok (reply 200 one_event)).

Definition net_list_body : env :=
  net_of (Ok (reply 200 (JList []))) (Ok (reply 200 one_event)).

Definition net_events_timeout : env :=
  net_of (Ok (reply 200 one_gate)) (Raise TimeoutError).

(** * Further vocabulary *)

(** ** Bodies and ids *)

(** A device response body holding the device list [l]. *)
Definition devices_body (l : list json) : json :=
  JDict [("data", JDict [("devices", JList l)])].

(** An events response body holding the event list [l]. *)
Definition events_body (l : list json) : json :=
  JDict [("data", JDict [("items", JList l)])].

(** [device.get('id')] of a device record. *)
Definition id_of (device : json) : json :=
  match device with
  | JDict d => py_get "id" d
  | _ => JNull
  end.

(** The events call of a cycle, if the device ids [ids] call for one. *)
Definition events_calls (net : env) (headers : list (string * string))
    (ids : list string) : list request :=
  match ids with
  | [] => []
  | _ => [events_request headers (events_params net ids)]
  end.

(** The device fetch of [net] raises, whatever the world. *)
Definition device_fetch_fails (token : string) (net : env) : Prop :=
  exists err, forall w,
    outcome (_fetch_devices net (auth_headers token)) w = Raise err.

(** [mirrors w]: the retained snapshot is the newest object of the store and
    holds the list [self.devices] holds; before the first success there is
    no object and [self.devices] is empty. *)
Definition mirrors (w : world) : Prop :=
  match _last_successful_data (self w) with
  | Some r =>
      S r = length (objects w) /\
      exists s, objects w !! r = Some s /\ snap_devices s = devices (self w)
  | None => objects w = [] /\ devices (self w) = []
  end.

(** * More of button.py *)

Definition DOMAIN : string := "hartkey".

(** [a or b]. *)
Definition py_or (a b : json) : json := if py_truthy a then a else b.

(** [v is None]. *)
Definition py_is_None (v : json) : bool :=
  match v with
  | JNull => true
  | _ => false
  end.

(** [API_URL_OPEN.format(intercom_id=device_id)]. *)
Definition api_url_open (device_id : json) : string :=
  "https://household.key.rt.ru/api/v2/app/devices/"
  +:+ py_str device_id +:+ "/open".

(** The name [HartkeyOpenButton.__init__] gives the device: the
    description, or else the first true one of the user's name, the
    company's name and a name made from the id. *)
Definition device_name (device : list (string * json)) (device_id : json)
    : json :=
  let device_name := py_get "description" device in
  if negb (py_truthy device_name) then
    py_or (py_or (py_get "name_by_user" device)
                 (py_get "name_by_company" device))
          (JStr ("Домофон " +:+ py_str device_id))
  else device_name.

Definition _get_device_model_name (device : list (string * json)) : json :=
  let device_type := py_get "device_type" device in
  if py_eq_str device_type "intercom" then JStr "Домофон"
  else if py_eq_str device_type "gate" then JStr "Ворота"
  else py_or device_type (JStr "Устройство").

Record DeviceInfo : Type := {
  identifiers : list (string * string);
  info_name : json;
  manufacturer : string;
  model : json;
  sw_version : json;
  serial_number : json;
}.

(** The attributes [HartkeyOpenButton.__init__] sets; an attribute it does
    not reach stays unset. *)
Record HartkeyOpenButton : Type := {
  self_device : list (string * json);
  self_device_id : json;
  _attr_icon : option string;
  _attr_name : option string;
  _attr_unique_id : option string;
  _attr_device_info : option DeviceInfo;
}.

Definition HartkeyOpenButton__init__ (device : list (string * json))
    : HartkeyOpenButton :=
  let device_id := py_get "id" device in
  if negb (py_truthy device_id) then
    {| self_device := device; self_device_id := device_id;
       _attr_icon := None; _attr_name := None;
       _attr_unique_id := None; _attr_device_info := None |}
  else
    let name := device_name device device_id in
    let device_type := py_get_default "device_type" (JStr "intercom") device in
    let gate := py_eq_str device_type "gate" in
    {| self_device := device;
       self_device_id := device_id;
       _attr_icon := Some (if gate then "mdi:gate" else "mdi:door-open");
       _attr_name :=
         Some (if gate then py_str name +:+ " - Открыть ворота"
               else py_str name +:+ " - Открыть дверь");
       _attr_unique_id := Some (py_str device_id +:+ "_open");
       _attr_device_info :=
         Some {| identifiers := [(DOMAIN, py_str device_id)];
                 info_name := name;
                 manufacturer := "Hartkey";
                 model := _get_device_model_name device;
                 sw_version := py_get "firmware_version" device;
                 serial_number := py_get "serial_number" device |} |}.

(** [session.post(url, headers=headers, json=body)]. *)
Record post_request : Type := {
  post_url : string;
  post_headers : list (string * string);
  post_json : json;
}.

Definition open_request (bearer_token : string) (device_id : json)
    : post_request :=
  {| post_url := api_url_open device_id;
     post_headers := [ ("Authorization", "Bearer " +:+ bearer_token);
                       ("Content-Type", "application/json") ];
     post_json := JDict [] |}.

(** button.py does not import [asyncio]: looking up [asyncio.TimeoutError]
    for the second handler of [async_press] raises [NameError]. *)
Definition name_error_asyncio : exn :=
  OtherException "name 'asyncio' is not defined".

(** The [try] statement of [async_press].  The refresh of the coordinator
    is the framework's [async_request_refresh], taken as a parameter. *)
Definition press_try (session_post : post_request -> result response)
    (async_request_refresh : M unit) (rq : post_request) : M unit :=
  try_except
    (response <- lift (session_post rq) ;;
     if resp_status response =? 200 then async_request_refresh
     else (text <- lift (resp_text response) ;; ret tt))
    (fun err =>
       match err with
       | ClientError _ => ret tt
       | _ => raise name_error_asyncio
       end).

(** What a press does: its result, the POST calls it issued and the world
    it leaves. *)
Record press_outcome : Type := {
  press_result : result unit;
  press_posts : list post_request;
  press_world : world;
}.

Definition async_press (session_post : post_request -> result response)
    (async_request_refresh : M unit) (button : HartkeyOpenButton)
    (w : world) : press_outcome :=
  if negb (py_truthy (self_device_id button)) then
    {| press_result := Ok tt; press_posts := []; press_world := w |}
  else
    let rq := open_request (bearer_token (self w)) (self_device_id button) in
    let run := press_try session_post async_request_refresh rq w in
    {| press_result := fst run; press_posts := [rq]; press_world := snd run |}.

(** The property [available]; [data] is [coordinator.data]. *)
Definition available (button : HartkeyOpenButton) (data : option loc) : bool :=
  negb (py_is_None (self_device_id button))
  && match data with Some _ => true | None => false end.

(** A device that [_is_valid_intercom] judges actionable. *)
Definition actionable (device : json) : Prop :=
  exists d, device = JDict d /\ _is_valid_intercom d = Ok true.

(** A device record whose capabilities, if any, are a list of records. *)
Definition well_shaped (device : json) : Prop :=
  exists d caps, device = JDict d /\
    py_get_default "capabilities" (JList []) d = JList caps /\
    Forall is_record caps.

(** A button used in the examples. *)
Definition gate_button : HartkeyOpenButton :=
  HartkeyOpenButton__init__ [("id", JInt 7); ("device_type", JStr "gate")].


(** * config_flow.py and the setup of __init__.py *)

Definition CONF_BEARER_TOKEN : string := "bearer_token".
Definition CONF_UPDATE_INTERVAL : string := "update_interval".
Definition DEFAULT_UPDATE_INTERVAL : Z := 5.

(** [d[key] = v]: the value of an existing key is replaced in place, a new
    key goes to the end. *)
Fixpoint dict_set (key : string) (v : json) (d : list (string * json))
    : list (string * json) :=
  match d with
  | [] => [(key, v)]
  | (k, x) :: rest =>
      if String.eqb k key then (k, v) :: rest
      else (k, x) :: dict_set key v rest
  end.

(** [KeyError(key)], raised by [d[key]] on a missing key. *)
Definition key_error (key : string) : exn :=
  OtherException ("'" +:+ key +:+ "'").

(** [d[key]]. *)
Definition py_item (key : string) (d : list (string * json)) : result json :=
  match dict_get key d with
  | Some v => Ok v
  | None => Raise (key_error key)
  end.

(** [a == b] on decoded values: [True] and [False] equal 1 and 0, lists are
    compared element by element, dicts key by key. *)
Fixpoint py_eq (a b : json) : bool :=
  match a, b with
  | JNull, JNull => true
  | JBool x, JBool y => Bool.eqb x y
  | JBool x, JInt n => n =? (if x then 1 else 0)
  | JInt n, JBool x => n =? (if x then 1 else 0)
  | JInt n, JInt m => n =? m
  | JStr s, JStr t => String.eqb s t
  | JList l1, JList l2 =>
      (fix eq_list (l1 l2 : list json) : bool :=
         match l1, l2 with
         | [], [] => true
         | x :: l1', y :: l2' => py_eq x y && eq_list l1' l2'
         | _, _ => false
         end) l1 l2
  | JDict d1, JDict d2 =>
      (length d1 =? length d2)%nat
      && (fix eq_items (d : list (string * json)) : bool :=
            match d with
            | [] => true
            | (k, v) :: d' =>
                match dict_get k d2 with
                | Some v2 => py_eq v v2
                | None => false
                end && eq_items d'
            end) d1
  | _, _ => false
  end.

(** The two exceptions of config_flow.py, and any other exception. *)
Inductive flow_exn : Type :=
  | CannotConnect
  | InvalidAuth
  | Escaped (e : exn).

Inductive flow_result (A : Type) : Type :=
  | Done (a : A)
  | Failed (e : flow_exn).
Arguments Done {A} a.
Arguments Failed {A} e.

(** [validate_auth]: the test call is the device call of the coordinator,
    made with the token to validate. *)
Definition validate_auth (session_get : request -> result response)
    (bearer_token : json) : flow_result bool :=
  let headers := auth_headers (py_str bearer_token) in
  match session_get (devices_request headers) with
  | Ok response =>
      if resp_status response =? 200 then Done true
      else if resp_status response =? 401 then Failed InvalidAuth
      else Failed CannotConnect
  | Raise (ClientError _) => Failed CannotConnect
  | Raise e => Failed (Escaped e)
  end.

(** What a step of the flow returns. *)
Inductive flow_step : Type :=
  | CreateEntry (title : string) (data : list (string * json))
  | ShowForm (step_id : string) (errors : list (string * string))
  | AbortFlow (reason : string).

(** The error a step shows for an exception of the validation. *)
Definition base_error (e : flow_exn) : list (string * string) :=
  match e with
  | CannotConnect => [("base", "cannot_connect")]
  | InvalidAuth => [("base", "invalid_auth")]
  | Escaped _ => [("base", "unknown")]
  end.

(** The [try] block shared by the steps: [user_input["bearer_token"]] is
    looked up inside it. *)
Definition validate_input (session_get : request -> result response)
    (user_input : list (string * json)) : flow_result bool :=
  match py_item "bearer_token" user_input with
  | Ok token => validate_auth session_get token
  | Raise e => Failed (Escaped e)
  end.

Definition async_step_user (session_get : request -> result response)
    (user_input : option (list (string * json))) : flow_step :=
  match user_input with
  | Some user_input =>
      match validate_input session_get user_input with
      | Failed e => ShowForm "user" (base_error e)
      | Done _ =>
          let user_input :=
            match dict_get CONF_UPDATE_INTERVAL user_input with
            | None =>
                dict_set CONF_UPDATE_INTERVAL (JInt DEFAULT_UPDATE_INTERVAL)
                  user_input
            | Some _ => user_input
            end in
          CreateEntry "Hartkey" user_input
      end
  | None => ShowForm "user" []
  end.

(** A step together with the data it writes to the config entry through
    [async_update_entry], if it does. *)
Record step_outcome : Type := {
  step : flow_step;
  entry_update : option (list (string * json));
}.

(** [async_step_reauth_confirm]; [existing_entry] tells whether the
    framework's [async_set_unique_id] finds the entry. *)
Definition async_step_reauth_confirm
    (session_get : request -> result response) (existing_entry : bool)
    (user_input : option (list (string * json))) : step_outcome :=
  match user_input with
  | Some user_input =>
      match validate_input session_get user_input with
      | Failed e =>
          {| step := ShowForm "reauth_confirm" (base_error e);
             entry_update := None |}
      | Done _ =>
          if existing_entry then
            {| step := AbortFlow "reauth_successful";
               entry_update := Some user_input |}
          else
            {| step := ShowForm "reauth_confirm" []; entry_update := None |}
      end
  | None => {| step := ShowForm "reauth_confirm" []; entry_update := None |}
  end.

(** [async_step_init] of the options flow; [entry_data] is
    [self.config_entry.data].  The lookups outside the [try] block raise
    [KeyError] out of the step. *)
Definition async_step_init (session_get : request -> result response)
    (entry_data : list (string * json))
    (user_input : option (list (string * json))) : result step_outcome :=
  let show_form (errors : list (string * string)) : result step_outcome :=
    match py_item CONF_BEARER_TOKEN entry_data with
    | Ok current_bearer_token =>
        Ok {| step := ShowForm "init" errors; entry_update := None |}
    | Raise e => Raise e
    end in
  match user_input with
  | Some user_input =>
      match py_item CONF_BEARER_TOKEN user_input with
      | Raise e => Raise e
      | Ok new_token =>
          match py_item CONF_BEARER_TOKEN entry_data with
          | Raise e => Raise e
          | Ok old_token =>
              let errors :=
                if negb (py_eq new_token old_token) then
                  match validate_auth session_get new_token with
                  | Done _ => []
                  | Failed e => base_error e
                  end
                else [] in
              match errors with
              | [] =>
                  match py_item CONF_UPDATE_INTERVAL user_input with
                  | Raise e => Raise e
                  | Ok interval =>
                      let new_data :=
                        dict_set CONF_UPDATE_INTERVAL interval
                          (dict_set CONF_BEARER_TOKEN new_token entry_data) in
                      Ok {| step := CreateEntry "" [];
                            entry_update := Some new_data |}
                  end
              | _ => show_form errors
              end
          end
      end
  | None => show_form []
  end.

(** The interval [async_setup_entry] of __init__.py builds the coordinator
    with. *)
Definition setup_update_interval (entry_data : list (string * json)) : json :=
  py_get_default CONF_UPDATE_INTERVAL (JInt DEFAULT_UPDATE_INTERVAL)
    entry_data.

(** * Properties *)

(** ** Reading the model *)

Lemma py_eq_str_spec (v : json) (s : string) :
  py_eq_str v s = true <-> v = JStr s.
Proof.
  destruct v; simpl; try (split; [discriminate | intros [=]]).
  rewrite String.eqb_eq. split; [intros -> | intros [=]]; congruence.
Qed.

Lemma py_is_True_spec (v : json) : py_is_True v = true <-> v = JBool true.
Proof.
  destruct v as [ | [] | | | | ]; simpl; split; congruence.
Qed.

Lemma is_door_type_spec (v : json) :
  is_door_type v = true <->
  v = JStr DEVICE_TYPE_INTERCOM \/ v = JStr DEVICE_TYPE_GATE.
Proof.
  unfold is_door_type. rewrite orb_true_iff, !py_eq_str_spec. reflexivity.
Qed.

Lemma is_valid_device_spec (device : json) :
  is_valid_device device = true <-> door_device device.
Proof.
  unfold door_device. destruct device; simpl;
    try (split; [discriminate | intros (d' & [=] & _)]).
  rewrite is_door_type_spec. split.
  - intros H. eauto.
  - intros (d' & [= <-] & H). exact H.
Qed.

Lemma retained_filter {A} (P : A -> Prop) (f : A -> bool) (l : list A) :
  (forall x, f x = true <-> P x) -> retained P l (List.filter f l).
Proof.
  intros Hf. induction l as [ | x l IH]; simpl.
  - constructor.
  - destruct (f x) eqn:Hx.
    + apply retained_keep; [apply Hf, Hx | exact IH].
    + apply retained_drop; [ | exact IH].
      intros HP. apply Hf in HP. congruence.
Qed.

Lemma retained_Forall {A} (P : A -> Prop) (l out : list A) :
  retained P l out -> Forall P out.
Proof. induction 1; auto. Qed.

Lemma retained_sublist {A} (P : A -> Prop) (l out : list A) :
  retained P l out -> sublist out l.
Proof. induction 1; constructor; auto. Qed.

Lemma retained_elem_of {A} (P : A -> Prop) (l out : list A) (x : A) :
  retained P l out -> (x ∈ out <-> x ∈ l /\ P x).
Proof.
  induction 1 as [ | y l out Hy _ IH | y l out Hy _ IH].
  - split; [intros H | intros [H _]]; inversion H.
  - rewrite !elem_of_cons, IH. split.
    + intros [-> | [? ?]]; auto.
    + intros [[-> | ?] ?]; auto.
  - rewrite elem_of_cons, IH. split.
    + intros [? ?]; auto.
    + intros [[-> | ?] ?]; [contradiction | auto].
Qed.

(** ** Grouping of events *)

Lemma add_event_spec (acc : gmap string (list json)) (event : json) :
  add_event acc event =
  match event_key event with
  | Some k => <[k := default [] (acc !! k) ++ [event]]> acc
  | None => acc
  end.
Proof.
  destruct event as [ | | | | | e]; try reflexivity.
  unfold add_event, event_key.
  destruct (py_truthy (py_get "device_id" e)); [ | reflexivity].
  set (k := py_str (py_get "device_id" e)).
  apply map_eq. intros i.
  destruct (decide (k = i)) as [<- | Hne].
  - rewrite lookup_insert_eq.
    destruct (acc !! k) as [evs | ] eqn:Hk; simpl.
    + rewrite lookup_alter_eq, Hk. reflexivity.
    + rewrite lookup_alter_eq, lookup_insert_eq. reflexivity.
  - rewrite lookup_insert_ne by exact Hne.
    destruct (acc !! k) as [evs | ] eqn:Hk; simpl.
    + rewrite lookup_alter_ne by exact Hne. reflexivity.
    + rewrite lookup_alter_ne, lookup_insert_ne by exact Hne. reflexivity.
Qed.

(** What the loop leaves under key [k], from what was there before. *)
Lemma fold_add_event_lookup (l : list json) :
  forall (acc : gmap string (list json)) (k : string),
    fold_left add_event l acc !! k =
    match acc !! k, filter (fun ev => event_key ev = Some k) l with
    | Some evs, new => Some (evs ++ new)
    | None, [] => None
    | None, new => Some new
    end.
Proof.
  induction l as [ | ev l IH]; intros acc k; simpl.
  - destruct (acc !! k); [rewrite app_nil_r | ]; reflexivity.
  - rewrite IH, add_event_spec.
    destruct (event_key ev) as [k' | ] eqn:Hev.
    + destruct (decide (k' = k)) as [-> | Hne].
      * rewrite lookup_insert_eq, filter_cons_True by exact Hev.
        destruct (acc !! k); simpl; [rewrite <- app_assoc | ]; reflexivity.
      * rewrite lookup_insert_ne, filter_cons_False by congruence.
        reflexivity.
    + rewrite filter_cons_False by congruence. reflexivity.
Qed.

Lemma parse_events_lookup (d : list (string * json)) (k : string) :
  _parse_events (JDict d) !! k =
  match filter (fun ev => event_key ev = Some k) (events_list d) with
  | [] => None
  | evs => Some evs
  end.
Proof.
  unfold _parse_events. rewrite fold_add_event_lookup, lookup_empty.
  reflexivity.
Qed.

Lemma parse_events_not_dict (data : json) :
  (forall d, data <> JDict d) -> _parse_events data = ∅.
Proof. destruct data; try reflexivity. intros H. destruct (H d eq_refl). Qed.

Lemma event_key_spec (event : json) (k : string) :
  event_key event = Some k <-> carries k event.
Proof.
  unfold carries. destruct event as [ | | | | | e]; simpl;
    try (split; [discriminate | intros (e' & [=] & _)]).
  destruct (py_truthy (py_get "device_id" e)) eqn:Ht; split.
  - intros [= <-]. eauto.
  - intros (e' & [= <-] & _ & <-). reflexivity.
  - discriminate.
  - intros (e' & [= <-] & Ht' & _). congruence.
Qed.

Lemma retained_stdpp_filter {A} (P : A -> Prop) `{!forall x, Decision (P x)}
    (l : list A) :
  retained P l (filter P l).
Proof.
  induction l as [ | x l IH].
  - constructor.
  - destruct (decide (P x)) as [HP | HP].
    + rewrite filter_cons_True by exact HP. constructor; assumption.
    + rewrite filter_cons_False by exact HP. constructor; assumption.
Qed.

Lemma retained_iff {A} (P Q : A -> Prop) (l out : list A) :
  (forall x, P x <-> Q x) -> retained P l out -> retained Q l out.
Proof.
  intros HPQ. induction 1; constructor; auto; rewrite <- HPQ; assumption.
Qed.

Lemma parse_events_payload (data : json) (k : string) :
  _parse_events data !! k =
  match filter (fun ev => event_key ev = Some k) (payload_events data) with
  | [] => None
  | evs => Some evs
  end.
Proof.
  destruct data; try (simpl; apply lookup_empty).
  apply parse_events_lookup.
Qed.

Lemma parse_events_group (data : json) (k : string) (evs : list json) :
  _parse_events data !! k = Some evs ->
  retained (carries k) (payload_events data) evs /\ evs <> [].
Proof.
  rewrite parse_events_payload.
  pose proof (retained_stdpp_filter (fun ev => event_key ev = Some k)
                (payload_events data)) as Hr.
  destruct (filter _ (payload_events data)) as [ | ev rest]; [discriminate | ].
  intros [= <-]. split; [ | discriminate].
  eapply retained_iff; [ | exact Hr]. intros x. apply event_key_spec.
Qed.

Lemma parse_events_is_Some (data : json) (k : string) :
  is_Some (_parse_events data !! k) <->
  exists ev, ev ∈ payload_events data /\ carries k ev.
Proof.
  rewrite parse_events_payload.
  destruct (filter _ (payload_events data)) as [ | ev rest] eqn:Hf.
  - split; [intros [? [=]] | ].
    intros (ev & Hin & Hc). apply event_key_spec in Hc.
    assert (ev ∈ filter (fun ev => event_key ev = Some k) (payload_events data))
      as Hev by (apply list_elem_of_filter; auto).
    rewrite Hf in Hev. inversion Hev.
  - split; [intros _ | eauto].
    assert (ev ∈ filter (fun ev => event_key ev = Some k) (payload_events data))
      as Hev by (rewrite Hf; left).
    apply list_elem_of_filter in Hev as [Hk Hin].
    exists ev. split; [exact Hin | apply event_key_spec, Hk].
Qed.

(** ** The device parser *)

(** C6. For every device-list payload, every element of the sequence
    returned by [_parse_devices] is a record whose [device_type] is
    intercom or gate; an element of the payload with another type, without
    a type, or that is not a record never appears; and the sequence is the
    payload's device list with exactly those elements struck out, the
    others in their original order. *)
Theorem parse_devices_keeps_door_devices (d : list (string * json)) :
  exists out,
    _parse_devices (JDict d) = Ok out /\
    Forall door_device out /\
    (forall device, ~ door_device device -> device ∉ out) /\
    retained door_device (payload_devices d) out /\
    sublist out (payload_devices d).
Proof.
  exists (List.filter is_valid_device (payload_devices d)).
  assert (retained door_device (payload_devices d)
            (List.filter is_valid_device (payload_devices d))) as Hr
    by (apply retained_filter, is_valid_device_spec).
  split; [reflexivity | ].
  split; [eapply retained_Forall, Hr | ].
  split.
  - intros device Hn Hin.
    apply (retained_elem_of _ _ _ device Hr) in Hin. tauto.
  - split; [exact Hr | eapply retained_sublist, Hr].
Qed.

(** The round trip of the spec: three door devices and two devices of
    other types give the three door devices, in order. *)
Example parse_devices_three_of_five :
  let dev (id : Z) (ty : json) := JDict [("id", JInt id); ("device_type", ty)] in
  _parse_devices
    (JDict [("data", JDict [("devices", JList
       [ dev 1 (JStr "intercom"); dev 2 (JStr "camera"); dev 3 (JStr "gate");
         JDict [("id", JInt 4)]; dev 5 (JStr "intercom") ])])])
  = Ok [ dev 1 (JStr "intercom"); dev 3 (JStr "gate"); dev 5 (JStr "intercom") ].
Proof. reflexivity. Qed.

(** ** The event parser *)

(** C8, as worded, fails: device ids are compared through [str], so two
    events whose ids differ (the number 1 and the text "1") are filed under
    one key, and the mapping has one key for two distinct ids. *)
Lemma parse_events_merges_ids_of_equal_str :
  let e1 := JDict [("device_id", JInt 1)] in
  let e2 := JDict [("device_id", JStr "1")] in
  let m := _parse_events (JDict [("data", JDict [("items", JList [e1; e2])])]) in
  JInt 1 <> JStr "1" /\
  m !! "1" = Some [e1; e2] /\
  (forall k, is_Some (m !! k) -> k = "1").
Proof.
  split; [discriminate | ]. split; [reflexivity | ].
  intros k. rewrite parse_events_is_Some.
  intros (ev & Hin & e & -> & _ & <-). simpl in Hin.
  apply elem_of_cons in Hin as [[= ->] | Hin]; [reflexivity | ].
  apply elem_of_cons in Hin as [[= ->] | Hin]; [reflexivity | ].
  inversion Hin.
Qed.

(** C8, amended. For every events payload the mapping returned by
    [_parse_events] has a key [k] exactly when some event of the payload is
    a mapping with a true [device_id] whose string form is [k]; the
    sequence under [k] is the payload's event list with exactly the events
    that do not carry [k] struck out, the others in the order of the
    payload.  When the ids of the payload are told apart by their string
    forms, the sequence under [k] is that of the events with one and the same
    [device_id]. *)
Theorem parse_events_groups_by_str_of_device_id (data : json) (k : string) :
  let m := _parse_events data in
  (is_Some (m !! k) <->
   exists ev, ev ∈ payload_events data /\ carries k ev) /\
  (forall evs, m !! k = Some evs ->
     retained (carries k) (payload_events data) evs /\
     sublist evs (payload_events data) /\
     (forall ev, ev ∈ evs <-> ev ∈ payload_events data /\ carries k ev)) /\
  ((forall e1 e2,
      JDict e1 ∈ payload_events data -> JDict e2 ∈ payload_events data ->
      py_truthy (py_get "device_id" e1) = true ->
      py_truthy (py_get "device_id" e2) = true ->
      py_str (py_get "device_id" e1) = py_str (py_get "device_id" e2) ->
      py_get "device_id" e1 = py_get "device_id" e2) ->
   forall evs, m !! k = Some evs ->
     exists id, py_str id = k /\
       forall ev, ev ∈ evs <->
         ev ∈ payload_events data /\
         exists e, ev = JDict e /\ py_get "device_id" e = id).
Proof.
  split; [apply parse_events_is_Some | ].
  split.
  - intros evs Hm. apply parse_events_group in Hm as [Hr _].
    split; [exact Hr | ].
    split; [eapply retained_sublist, Hr | ].
    intros ev. apply retained_elem_of, Hr.
  - intros Hinj evs Hm. apply parse_events_group in Hm as [Hr Hne].
    pose proof (fun ev => retained_elem_of _ _ _ ev Hr) as Hin.
    destruct evs as [ | ev0 evs]; [destruct (Hne eq_refl) | ].
    destruct (proj1 (Hin ev0)) as [Hp0 (e0 & -> & Ht0 & Hk0)]; [left | ].
    exists (py_get "device_id" e0). split; [exact Hk0 | ].
    intros ev. rewrite Hin. split.
    + intros [Hp (e & -> & Ht & Hk)]. split; [exact Hp | ].
      exists e. split; [reflexivity | ].
      apply Hinj; auto. congruence.
    + intros [Hp (e & -> & Hid)]. split; [exact Hp | ].
      exists e. rewrite Hid. auto.
Qed.

(** The grouping example of the spec: five events over three device ids
    give three keys, each with its events in the order supplied. *)
Example parse_events_five_over_three :
  let ev (id : string) (at_ : string) :=
    JDict [("device_id", JStr id); ("raised_at", JStr at_)] in
  let m := _parse_events (JDict [("data", JDict [("items", JList
     [ ev "a" "5"; ev "b" "4"; ev "a" "3"; ev "c" "2"; ev "b" "1" ])])]) in
  size m = 3%nat /\
  m !! "a" = Some [ev "a" "5"; ev "a" "3"] /\
  m !! "b" = Some [ev "b" "4"; ev "b" "1"] /\
  m !! "c" = Some [ev "c" "2"].
Proof. vm_compute. repeat split; reflexivity. Qed.

(** C10. For every events payload, an event whose [device_id] is missing
    or false (absent, [None], the empty string, 0) is in no sequence of the
    mapping; every event of a sequence is filed under the string form of its
    own [device_id], and every event with a true [device_id] is filed there;
    so an event with a numeric id [n] is found under the text of [n].  The
    device records returned by [_parse_devices] are records of the payload
    themselves, with their [id] as received. *)
Theorem parse_events_keys_are_str_of_device_id (data : json) :
  let m := _parse_events data in
  (forall e, dict_get "device_id" e = None \/
             py_get "device_id" e = JNull \/
             py_get "device_id" e = JStr "" \/
             py_get "device_id" e = JInt 0 ->
             py_truthy (py_get "device_id" e) = false) /\
  (forall e k evs, py_truthy (py_get "device_id" e) = false ->
     m !! k = Some evs -> JDict e ∉ evs) /\
  (forall k evs ev, m !! k = Some evs -> ev ∈ evs -> carries k ev) /\
  (forall e, JDict e ∈ payload_events data ->
     py_truthy (py_get "device_id" e) = true ->
     exists evs, m !! py_str (py_get "device_id" e) = Some evs /\
                 JDict e ∈ evs) /\
  (forall e n, JDict e ∈ payload_events data ->
     py_get "device_id" e = JInt n -> n <> 0 ->
     exists evs, m !! str_of_int n = Some evs /\ JDict e ∈ evs) /\
  (forall body out device, _parse_devices body = Ok out -> device ∈ out ->
     exists d, body = JDict d /\ device ∈ payload_devices d).
Proof.
  assert (forall k evs ev, _parse_events data !! k = Some evs -> ev ∈ evs ->
            ev ∈ payload_events data /\ carries k ev) as Hin.
  { intros k evs ev Hm Hev. apply parse_events_group in Hm as [Hr _].
    apply (retained_elem_of _ _ _ ev Hr), Hev. }
  assert (forall e, JDict e ∈ payload_events data ->
            py_truthy (py_get "device_id" e) = true ->
            exists evs, _parse_events data !! py_str (py_get "device_id" e)
                        = Some evs /\ JDict e ∈ evs) as Hfiled.
  { intros e He Ht.
    assert (carries (py_str (py_get "device_id" e)) (JDict e)) as Hc
      by (exists e; auto).
    destruct (proj2 (parse_events_is_Some data
                       (py_str (py_get "device_id" e)))) as [evs Hm];
      [eauto | ].
    exists evs. split; [exact Hm | ].
    apply parse_events_group in Hm as [Hr _].
    apply (retained_elem_of _ _ _ (JDict e) Hr). auto. }
  cbv zeta. repeat split.
  - intros e [H | [H | [H | H]]].
    + unfold py_get, py_get_default. rewrite H. reflexivity.
    + rewrite H. reflexivity.
    + rewrite H. reflexivity.
    + rewrite H. reflexivity.
  - intros e k evs Hf Hm Hev.
    destruct (Hin _ _ _ Hm Hev) as [_ (e' & [= <-] & Ht & _)]. congruence.
  - intros k evs ev Hm Hev. apply (Hin _ _ _ Hm Hev).
  - exact Hfiled.
  - intros e n He Hid Hn.
    destruct (Hfiled e He) as (evs & Hm & Hev).
    + rewrite Hid. simpl. apply negb_true_iff, Z.eqb_neq, Hn.
    + rewrite Hid in Hm. exists evs. split; assumption.
  - intros body out device Hp Hdev.
    destruct body as [ | | | | | d]; try discriminate.
    exists d. split; [reflexivity | ].
    injection Hp as <-. apply list_elem_of_In, filter_In in Hdev. 
    apply list_elem_of_In, Hdev.
Qed.

(** A device whose id is the number 7 keeps that number in the parsed
    device list, while its events are filed under the text "7". *)
Example numeric_id_device_and_events :
  let device := JDict [("id", JInt 7); ("device_type", JStr "gate")] in
  let event := JDict [("device_id", JInt 7)] in
  _parse_devices (JDict [("data", JDict [("devices", JList [device])])])
    = Ok [device] /\
  _parse_events (JDict [("data", JDict [("items", JList [event])])]) !! "7"
    = Some [event].
Proof. split; reflexivity. Qed.

(** ** The fetchers *)

Ltac unfold_m :=
  unfold outcome, after, bind, try_except, ret, raise, lift, http_get,
    get_self in *; simpl in *.

Section DeviceFetch.

Context (net : env) (headers : list (string * string)).

Lemma fetch_devices_after (w : world) :
  after (_fetch_devices net headers) w = log_call (devices_request headers) w.
Proof.
  unfold _fetch_devices. unfold_m.
  destruct (session_get net (devices_request headers)) as [resp | e];
    [ | reflexivity].
  destruct (resp_status resp =? 200).
  - destruct (resp_json resp); reflexivity.
  - destruct (resp_status resp =? 401); [reflexivity | ].
    destruct (resp_text resp); reflexivity.
Qed.

Lemma fetch_devices_outcome_indep (w1 w2 : world) :
  outcome (_fetch_devices net headers) w1 =
  outcome (_fetch_devices net headers) w2.
Proof.
  unfold _fetch_devices. unfold_m.
  destruct (session_get net (devices_request headers)) as [resp | e];
    [ | reflexivity].
  destruct (resp_status resp =? 200).
  - destruct (resp_json resp); reflexivity.
  - destruct (resp_status resp =? 401); [reflexivity | ].
    destruct (resp_text resp); reflexivity.
Qed.

Lemma fetch_devices_parsed (w : world) (devs : list json) :
  outcome (_fetch_devices net headers) w = Ok devs ->
  exists resp d,
    session_get net (devices_request headers) = Ok resp /\
    resp_status resp = 200 /\
    resp_json resp = Ok (JDict d) /\
    _parse_devices (JDict d) = Ok devs.
Proof.
  unfold _fetch_devices. unfold_m.
  destruct (session_get net (devices_request headers)) as [resp | e];
    [ | discriminate].
  destruct (resp_status resp =? 200) eqn:Hs.
  - destruct (resp_json resp) as [data | e] eqn:Hj; [ | discriminate].
    simpl. intros Hp.
    destruct data as [ | | | | | d]; try discriminate.
    exists resp, d. apply Z.eqb_eq in Hs. auto.
  - destruct (resp_status resp =? 401); [discriminate | ].
    destruct (resp_text resp); discriminate.
Qed.

End DeviceFetch.

Lemma parse_devices_retained (d : list (string * json)) :
  retained door_device (payload_devices d)
    (List.filter is_valid_device (payload_devices d)).
Proof. apply retained_filter, is_valid_device_spec. Qed.

Lemma parse_devices_records (data : json) (devs : list json) :
  _parse_devices data = Ok devs -> Forall is_record devs.
Proof.
  destruct data as [ | | | | | d]; try discriminate.
  intros [= <-].
  eapply Forall_impl; [eapply retained_Forall, parse_devices_retained | ].
  intros v (dd & -> & _). exists dd. reflexivity.
Qed.

Lemma collect_device_ids_records (devs : list json) :
  Forall is_record devs -> exists ids, collect_device_ids devs = Ok ids.
Proof.
  induction 1 as [ | v devs [d ->] _ [ids IH]]; simpl.
  - eauto.
  - rewrite IH. destruct (_ && _); eauto.
Qed.

Lemma collect_device_ids_none (devs : list json) :
  Forall is_record devs ->
  Forall (fun device => ~ has_valid_id device) devs ->
  collect_device_ids devs = Ok [].
Proof.
  induction 1 as [ | v devs [d ->] _ IH]; intros Hno; simpl.
  - reflexivity.
  - inversion Hno as [ | ? ? Hv Hrest]; subst. rewrite (IH Hrest).
    destruct (py_truthy (py_get "id" d)) eqn:Ht;
      destruct (is_door_type (py_get "device_type" d)) eqn:Hty;
      try reflexivity.
    destruct Hv. exists d. auto.
Qed.

Section EventFetch.

Context (net : env) (headers : list (string * string)).

Lemma fetch_events_run (devs : list json) (ids : list string) (w : world) :
  collect_device_ids devs = Ok ids ->
  _fetch_events net headers devs w =
  match ids with
  | [] => (Ok ∅, w)
  | _ =>
      let rq := events_request headers (events_params net ids) in
      (Ok (events_of_reply (session_get net rq)), log_call rq w)
  end.
Proof.
  intros Hids. unfold _fetch_events.
  destruct devs as [ | v devs]; simpl py_truthy; cbv iota.
  - simpl in Hids. injection Hids as <-. reflexivity.
  - simpl negb. cbv iota. unfold_m. rewrite Hids.
    destruct ids as [ | i ids]; [reflexivity | ].
    set (rq := events_request headers (events_params net (i :: ids))).
    destruct (session_get net rq) as [resp | e]; simpl.
    + destruct (resp_status resp =? 200).
      * destruct (resp_json resp) as [data | e]; [reflexivity | ].
        destruct e; reflexivity.
      * destruct (resp_status resp =? 400).
        -- destruct (resp_json resp) as [data | e]; [reflexivity | ].
           destruct e; reflexivity.
        -- destruct (resp_text resp) as [t | e]; [reflexivity | ].
           destruct e; reflexivity.
    + destruct e; reflexivity.
Qed.

Lemma fetch_events_total (devs : list json) (w : world) :
  Forall is_record devs ->
  exists events w',
    _fetch_events net headers devs w = (Ok events, w') /\
    self w' = self w /\ objects w' = objects w /\
    forall w2, outcome (_fetch_events net headers devs) w2 = Ok events.
Proof.
  intros Hrec. destruct (collect_device_ids_records devs Hrec) as [ids Hids].
  destruct ids as [ | i ids].
  - exists ∅, w. rewrite (fetch_events_run _ _ _ Hids).
    repeat split; try reflexivity.
    intros w2. unfold outcome. rewrite (fetch_events_run _ _ _ Hids).
    reflexivity.
  - eexists _, _. rewrite (fetch_events_run _ _ _ Hids).
    repeat split; try reflexivity.
    intros w2. unfold outcome. rewrite (fetch_events_run _ _ _ Hids).
    reflexivity.
Qed.

End EventFetch.

(** The device list must consist of records: on any other element
    [device.get] raises, before the [try] block is entered. *)
Example fetch_events_on_non_record :
  outcome (_fetch_events net_good (auth_headers "token") [JInt 5])
    (__init__ "token" 5)
  = Raise (AttributeError "'int' object has no attribute 'get'").
Proof. reflexivity. Qed.

(** ** The refresh cycle *)

Lemma update_data_failure (net : env) (w : world) (err : exn) :
  outcome (_fetch_devices net (auth_headers (bearer_token (self w)))) w
    = Raise err ->
  _async_update_data net w =
  (match _last_successful_data (self w) with
   | Some last => Ok last
   | None => Raise (failure_of err)
   end,
   log_call (devices_request (auth_headers (bearer_token (self w)))) w).
Proof.
  intros Hd.
  pose proof (fetch_devices_after net (auth_headers (bearer_token (self w))) w)
    as Ha.
  unfold _async_update_data, last_or_raise.
  unfold outcome, after in Hd, Ha.
  unfold bind at 1. unfold get_self at 1. cbv beta iota zeta.
  unfold try_except. unfold bind at 1.
  destruct (_fetch_devices net (auth_headers (bearer_token (self w))) w)
    as [r w1]. simpl in Hd, Ha. subst r w1.
  destruct err; unfold_m;
    destruct (_last_successful_data (self w)); reflexivity.
Qed.

Lemma update_data_success (net : env) (w : world) (devs : list json) :
  outcome (_fetch_devices net (auth_headers (bearer_token (self w)))) w
    = Ok devs ->
  exists events w',
    (forall w0,
       outcome (_fetch_events net (auth_headers (bearer_token (self w))) devs)
         w0 = Ok events) /\
    _async_update_data net w = (Ok (length (objects w)), w') /\
    self w' = published devs (length (objects w)) (self w) /\
    objects w' =
      objects w ++ [{| snap_devices := devs; snap_events := events |}].
Proof.
  intros Hd.
  pose proof (fetch_devices_after net (auth_headers (bearer_token (self w))) w)
    as Ha.
  destruct (fetch_devices_parsed _ _ _ _ Hd) as (resp & d & _ & _ & _ & Hp).
  apply parse_devices_records in Hp.
  unfold _async_update_data.
  unfold outcome, after in Hd, Ha.
  unfold bind at 1. unfold get_self at 1. cbv beta iota zeta.
  unfold try_except. unfold bind at 1.
  destruct (_fetch_devices net (auth_headers (bearer_token (self w))) w)
    as [r w1]. simpl in Hd, Ha. subst r w1.
  unfold bind at 1. unfold set_devices at 1. cbv beta iota.
  unfold bind at 1.
  match goal with
  | |- context [_fetch_events ?n ?h ?ds ?w0] =>
      destruct (fetch_events_total n h ds w0 Hp)
        as (events & w2 & Hev & Hself & Hobj & Hindep); rewrite Hev
  end.
  exists events. eexists. split; [exact Hindep | ].
  unfold bind, new_snapshot, set_last_successful_data, ret. simpl.
  rewrite Hself, Hobj. simpl. repeat split; reflexivity.
Qed.

Lemma start_consistent (token : string) (interval : Z) :
  consistent token (start token interval).
Proof.
  unfold consistent, start. simpl. repeat split; auto. discriminate.
Qed.

Lemma refresh_consistent (token : string) (net : env)
    (st : world * option loc) :
  consistent token st -> consistent token (refresh net st).
Proof.
  destruct st as [w held]. intros (Htok & Hlast & Hheld & Hobjs).
  simpl in *. unfold refresh. simpl.
  destruct (outcome (_fetch_devices net (auth_headers (bearer_token (self w)))) w)
    as [devs | err] eqn:Hd.
  - destruct (update_data_success net w devs Hd)
      as (events & w' & Hev & Hrun & Hself & Hobj).
    rewrite Hrun. unfold consistent. simpl. rewrite Hself, Hobj. simpl.
    repeat split; auto.
    + intros r [= <-]. rewrite lookup_app_r, Nat.sub_diag by reflexivity.
      eauto.
    + apply Forall_app. split; [exact Hobjs | ].
      constructor; [ | constructor]. exists net. intros w0. simpl.
      rewrite <- Htok. split; [ | apply Hev].
      rewrite <- Hd. apply fetch_devices_outcome_indep.
  - rewrite (update_data_failure net w err Hd).
    destruct (_last_successful_data (self w)) as [last | ] eqn:Hl;
      unfold consistent; simpl; repeat split; auto.
    + intros r Hr. apply Hheld. congruence.
    + congruence.
Qed.

Lemma run_consistent (token : string) (nets : list env) :
  forall st, consistent token st -> consistent token (run nets st).
Proof.
  induction nets as [ | net nets IH]; intros st Hst; simpl.
  - exact Hst.
  - apply IH, refresh_consistent, Hst.
Qed.

(** C1. After any number of refresh cycles, one more cycle leaves every
    snapshot object created so far as it was, and a value it returns is a
    reference to a snapshot both of whose parts come from one single cycle:
    either a new object holding the devices and the events fetched in this
    very cycle, or, when the device fetch raised, the retained
    last-successful snapshot, the same object the caller already held, with
    the store and the coordinator's fields unchanged.  In particular a cycle
    whose device fetch raises while a snapshot is held returns that same
    reference, and the caller holds the same reference afterwards. *)
Theorem refresh_returns_whole_snapshot (token : string) (interval : Z)
    (nets : list env) (net : env) :
  let st := run nets (start token interval) in
  let w := fst st in
  let res := outcome (_async_update_data net) w in
  let w' := after (_async_update_data net) w in
  let fetch := outcome (_fetch_devices net (auth_headers token)) w in
  objects w `prefix_of` objects w' /\
  (forall r, res = Ok r ->
     (exists s net0, objects w' !! r = Some s /\ from_cycle token net0 s) /\
     ((r = length (objects w) /\
       exists s, objects w' !! r = Some s /\ from_cycle token net s) \/
      ((exists err, fetch = Raise err) /\
       snd st = Some r /\ _last_successful_data (self w) = Some r /\
       objects w' = objects w /\ self w' = self w))) /\
  (forall err r, fetch = Raise err -> snd st = Some r ->
     res = Ok r /\ objects w' = objects w /\ snd (refresh net st) = Some r).
Proof.
  cbv zeta.
  set (st := run nets (start token interval)). set (w := fst st).
  assert (consistent token st) as (Htok & Hlast & Hheld & Hobjs)
    by apply run_consistent, start_consistent.
  fold w in Htok, Hlast, Hheld, Hobjs.
  rewrite <- Htok.
  destruct (outcome (_fetch_devices net (auth_headers (bearer_token (self w)))) w)
    as [devs | err] eqn:Hd.
  - destruct (update_data_success net w devs Hd)
      as (events & w' & Hev & Hrun & Hself & Hobj).
    unfold refresh, outcome, after. fold w. rewrite Hrun. simpl.
    rewrite Hobj.
    split; [apply prefix_app_r; reflexivity | ].
    split; [ | discriminate].
    intros r [= <-].
    assert ((objects w ++ [{| snap_devices := devs; snap_events := events |}])
              !! length (objects w)
            = Some {| snap_devices := devs; snap_events := events |}) as Hlook
      by (rewrite lookup_app_r, Nat.sub_diag by reflexivity; reflexivity).
    assert (from_cycle (bearer_token (self w)) net
              {| snap_devices := devs; snap_events := events |}) as Hfrom.
    { intros w0. simpl. split; [ | apply Hev].
      rewrite <- Hd. apply fetch_devices_outcome_indep. }
    split; [eauto | ]. left. eauto.
  - unfold refresh, outcome, after. fold w.
    rewrite (update_data_failure net w err Hd). simpl.
    split; [reflexivity | ].
    destruct (_last_successful_data (self w)) as [last | ] eqn:Hl; simpl.
    + split.
      * intros r [= <-].
        destruct (Hheld last (eq_sym Hlast)) as [s Hs].
        split.
        -- pose proof (proj1 (Forall_lookup _ _) Hobjs _ _ Hs) as [net0 Hn].
           rewrite Htok. eauto.
        -- right. repeat split; eauto.
      * intros err' r _ Hr. rewrite Hr in Hlast.
        injection Hlast as <-. auto.
    + split; [discriminate | ].
      intros err' r _ Hr. congruence.
Qed.

(** C3. After any number of refresh cycles, a cycle whose device fetch
    raises (the network call raising a network error, a timeout or any other
    exception, among others) while no snapshot is retained raises
    [UpdateFailed] instead of returning; it creates no snapshot, retains
    none, and the caller still holds none.  Conversely a cycle raises only
    in that case. *)
Theorem first_failure_is_reported (token : string) (interval : Z)
    (nets : list env) (net : env) :
  let st := run nets (start token interval) in
  let w := fst st in
  let res := outcome (_async_update_data net) w in
  let w' := after (_async_update_data net) w in
  let fetch := outcome (_fetch_devices net (auth_headers token)) w in
  (forall err,
     session_get net (devices_request (auth_headers token)) = Raise err ->
     fetch = Raise err) /\
  (forall err, fetch = Raise err -> _last_successful_data (self w) = None ->
     res = Raise (failure_of err) /\
     (exists msg, failure_of err = UpdateFailed msg) /\
     objects w' = objects w /\
     _last_successful_data (self w') = None /\
     snd st = None /\ snd (refresh net st) = None) /\
  (forall e, res = Raise e ->
     (exists err, fetch = Raise err /\ e = failure_of err) /\
     _last_successful_data (self w) = None /\ snd st = None).
Proof.
  cbv zeta.
  set (st := run nets (start token interval)). set (w := fst st).
  assert (consistent token st) as (Htok & Hlast & _ & _)
    by apply run_consistent, start_consistent.
  fold w in Htok, Hlast. rewrite <- Htok.
  split.
  { intros err Hnet. unfold _fetch_devices. unfold_m. rewrite Hnet.
    reflexivity. }
  destruct (outcome (_fetch_devices net (auth_headers (bearer_token (self w)))) w)
    as [devs | err] eqn:Hd.
  - destruct (update_data_success net w devs Hd)
      as (events & w' & _ & Hrun & _ & _).
    unfold refresh, outcome, after. fold w. rewrite Hrun. simpl.
    split; intros; discriminate.
  - unfold refresh, outcome, after. fold w.
    rewrite (update_data_failure net w err Hd). simpl.
    destruct (_last_successful_data (self w)) as [last | ] eqn:Hl; simpl.
    + split; intros; discriminate.
    + split.
      * intros err' [= <-] _. repeat split; auto.
        destruct err; simpl; eauto.
      * intros e [= <-]. eauto.
Qed.

(** ** Authentication failures *)

(** C2, as worded, fails: once a cycle has succeeded, a cycle whose device
    fetch is answered 401 returns the retained snapshot; the failure is
    absorbed by the fallback. *)
Lemma auth_rejection_absorbed_by_fallback :
  let w1 := after (_async_update_data net_good) (__init__ "token" 5) in
  outcome (_async_update_data net_good) (__init__ "token" 5) = Ok 0%nat /\
  outcome (_fetch_devices net_401 (auth_headers "token")) w1
    = Raise (UpdateFailed "Invalid authentication") /\
  outcome (_async_update_data net_401) w1 = Ok 0%nat.
Proof. vm_compute. repeat split; reflexivity. Qed.

(** C2, amended. When the device fetch is answered 401, [_fetch_devices]
    raises [UpdateFailed] "Invalid authentication", and the cycle issues
    that one call only and changes neither the coordinator's fields nor the
    store; the cycle then treats the failure like any other error of the
    device fetch: with a retained snapshot it returns that snapshot, and
    only without one does it raise, as [UpdateFailed] "Unexpected error:
    Invalid authentication". *)
Theorem auth_rejection_uses_fallback (net : env) (w : world)
    (resp : response) :
  session_get net (devices_request (auth_headers (bearer_token (self w))))
    = Ok resp ->
  resp_status resp = 401 ->
  outcome (_fetch_devices net (auth_headers (bearer_token (self w)))) w
    = Raise (UpdateFailed "Invalid authentication") /\
  calls (after (_async_update_data net) w)
    = calls w ++ [devices_request (auth_headers (bearer_token (self w)))] /\
  self (after (_async_update_data net) w) = self w /\
  objects (after (_async_update_data net) w) = objects w /\
  outcome (_async_update_data net) w =
    match _last_successful_data (self w) with
    | Some last => Ok last
    | None => Raise (UpdateFailed "Unexpected error: Invalid authentication")
    end.
Proof.
  intros Hnet Hstatus.
  assert (outcome (_fetch_devices net (auth_headers (bearer_token (self w)))) w
          = Raise (UpdateFailed "Invalid authentication")) as Hd.
  { unfold _fetch_devices. unfold_m. rewrite Hnet, Hstatus. reflexivity. }
  split; [exact Hd | ].
  unfold outcome, after. rewrite (update_data_failure net w _ Hd). simpl.
  repeat split; reflexivity.
Qed.

Lemma auth_rejection_uses_fallback_witness :
  outcome (_async_update_data net_401) (__init__ "token" 5)
  = Raise (UpdateFailed "Unexpected error: Invalid authentication").
Proof.
  apply (auth_rejection_uses_fallback net_401 (__init__ "token" 5)
           (reply 401 JNull)); reflexivity.
Defined.

(** ** Bodies of the device response *)

(** C5, as worded, fails: answered 200 with a body that is not a mapping
    (here an empty list), the device fetch raises instead of giving an empty
    sequence, and the first cycle fails. *)
Lemma devices_body_not_mapping_raises :
  outcome (_fetch_devices net_list_body (auth_headers "token"))
    (__init__ "token" 5)
  = Raise (UpdateFailed "Expected dictionary response, got <class 'list'>") /\
  outcome (_async_update_data net_list_body) (__init__ "token" 5)
  = Raise (UpdateFailed
      "Unexpected error: Expected dictionary response, got <class 'list'>").
Proof. split; reflexivity. Qed.

Lemma payload_devices_absent (d : list (string * json)) :
  ~ has_device_list d -> payload_devices d = [].
Proof.
  intros Hno. unfold payload_devices.
  destruct (dict_get "data" d) as [[ | | | | | dc] | ] eqn:Hdata;
    try reflexivity.
  destruct (dict_get "devices" dc) as [[ | | | | l | ] | ] eqn:Hdev;
    try reflexivity.
  destruct Hno. exists dc, l. auto.
Qed.

(** C5, amended. When the device fetch is answered 200 with a body that is
    a mapping without the nested device list, [_fetch_devices] gives the
    empty sequence and the cycle succeeds, returning a new snapshot with no
    devices and no events.  When the body is not a mapping,
    [_fetch_devices] raises [UpdateFailed]: the cycle returns the retained
    snapshot if there is one and fails otherwise. *)
Theorem devices_body_without_list (net : env) (w : world) (resp : response)
    (data : json) :
  session_get net (devices_request (auth_headers (bearer_token (self w))))
    = Ok resp ->
  resp_status resp = 200 ->
  resp_json resp = Ok data ->
  let fetch :=
    outcome (_fetch_devices net (auth_headers (bearer_token (self w)))) w in
  let res := outcome (_async_update_data net) w in
  let w' := after (_async_update_data net) w in
  (forall d, data = JDict d -> ~ has_device_list d ->
     fetch = Ok [] /\
     res = Ok (length (objects w)) /\
     objects w' !! length (objects w)
       = Some {| snap_devices := []; snap_events := ∅ |}) /\
  ((forall d, data <> JDict d) ->
     fetch = Raise (UpdateFailed ("Expected dictionary response, got <class '"
                                  +:+ type_name data +:+ "'>")) /\
     res = match _last_successful_data (self w) with
           | Some last => Ok last
           | None =>
               Raise (UpdateFailed
                 ("Unexpected error: Expected dictionary response, got <class '"
                  +:+ type_name data +:+ "'>"))
           end).
Proof.
  intros Hnet Hstatus Hjson. cbv zeta.
  assert (outcome (_fetch_devices net (auth_headers (bearer_token (self w)))) w
          = _parse_devices data) as Hfetch.
  { unfold _fetch_devices. unfold_m. rewrite Hnet, Hstatus. simpl.
    rewrite Hjson. reflexivity. }
  split.
  - intros d -> Hno. rewrite Hfetch. simpl.
    rewrite (payload_devices_absent d Hno). simpl.
    split; [reflexivity | ].
    assert (outcome (_fetch_devices net (auth_headers (bearer_token (self w)))) w
            = Ok []) as Hd.
    { rewrite Hfetch. simpl. rewrite (payload_devices_absent d Hno).
      reflexivity. }
    destruct (update_data_success net w [] Hd)
      as (events & w' & Hev & Hrun & _ & Hobj).
    unfold outcome, after in *. rewrite Hrun. simpl.
    split; [reflexivity | ].
    rewrite Hobj, lookup_app_r, Nat.sub_diag by reflexivity. simpl.
    specialize (Hev w). simpl in Hev. injection Hev as <-. reflexivity.
  - intros Hnd.
    assert (_parse_devices data
            = Raise (UpdateFailed ("Expected dictionary response, got <class '"
                                   +:+ type_name data +:+ "'>"))) as Hp.
    { destruct data; try reflexivity. destruct (Hnd d eq_refl). }
    rewrite Hp in Hfetch. split; [exact Hfetch | ].
    unfold outcome. rewrite (update_data_failure net w _ Hfetch). reflexivity.
Qed.

Lemma devices_body_without_list_witness :
  outcome (_async_update_data
             (net_of (Ok (reply 200 (JDict [("data", JNull)])))
                     (Ok (reply 200 one_event))))
    (__init__ "token" 5)
  = Ok 0%nat.
Proof.
  refine (proj1 (proj2 (proj1
    (devices_body_without_list
       (net_of (Ok (reply 200 (JDict [("data", JNull)])))
               (Ok (reply 200 one_event)))
       (__init__ "token" 5) (reply 200 (JDict [("data", JNull)]))
       (JDict [("data", JNull)]) eq_refl eq_refl eq_refl)
    [("data", JNull)] eq_refl _))).
  intros (dc & l & Hdata & _). discriminate Hdata.
Defined.

(** ** The event fetch *)

(** C4. Called with device records, [_fetch_events] never raises and
    touches neither the coordinator's fields nor the store.  When it has at
    least one device id it issues one call, and every failure gives the
    empty mapping: the call raising (timeout, network error, any other
    exception), a status other than 200 (400 included, whatever reading the
    body does), a 200 whose body cannot be read as JSON, and a 200 whose
    body is not a mapping; otherwise the result is the parsed body.  The
    device fetch only ever gives records, so a cycle whose device fetch
    succeeded always returns a snapshot. *)
Theorem fetch_events_never_raises (net : env)
    (headers : list (string * string)) (devs : list json) (w : world) :
  Forall is_record devs ->
  exists events,
    outcome (_fetch_events net headers devs) w = Ok events /\
    self (after (_fetch_events net headers devs) w) = self w /\
    objects (after (_fetch_events net headers devs) w) = objects w /\
    (forall ids, collect_device_ids devs = Ok ids -> ids <> [] ->
       let rq := events_request headers (events_params net ids) in
       calls (after (_fetch_events net headers devs) w) = calls w ++ [rq] /\
       (forall e, session_get net rq = Raise e -> events = ∅) /\
       (forall resp, session_get net rq = Ok resp ->
          (resp_status resp <> 200 -> events = ∅) /\
          (forall e, resp_status resp = 200 -> resp_json resp = Raise e ->
             events = ∅) /\
          (forall data, resp_status resp = 200 -> resp_json resp = Ok data ->
             events = _parse_events data /\
             ((forall d, data <> JDict d) -> events = ∅)))) /\
    (forall w0 ds,
       outcome (_fetch_devices net (auth_headers (bearer_token (self w0)))) w0
         = Ok ds ->
       Forall is_record ds /\
       exists r, outcome (_async_update_data net) w0 = Ok r).
Proof.
  intros Hrec.
  destruct (collect_device_ids_records devs Hrec) as [ids Hids].
  pose proof (fetch_events_run net headers devs ids w Hids) as Hrun.
  assert (forall w0 ds,
            outcome (_fetch_devices net (auth_headers (bearer_token (self w0))))
              w0 = Ok ds ->
            Forall is_record ds /\
            exists r, outcome (_async_update_data net) w0 = Ok r) as Hcycle.
  { intros w0 ds Hd. split.
    - destruct (fetch_devices_parsed _ _ _ _ Hd) as (? & ? & _ & _ & _ & Hp).
      apply (parse_devices_records _ _ Hp).
    - destruct (update_data_success net w0 ds Hd) as (? & ? & _ & Hr & _).
      unfold outcome. rewrite Hr. eauto. }
  unfold outcome, after. rewrite Hrun.
  destruct ids as [ | i ids].
  - exists ∅. simpl. split; [reflexivity | ].
    split; [reflexivity | ]. split; [reflexivity | ].
    split; [ | exact Hcycle].
    intros ids' Hids'. rewrite Hids in Hids'. injection Hids' as <-.
    intros Hne. destruct (Hne eq_refl).
  - eexists. simpl. split; [reflexivity | ].
    split; [reflexivity | ]. split; [reflexivity | ].
    split; [ | exact Hcycle].
    intros ids' Hids' _. rewrite Hids in Hids'. injection Hids' as <-.
    split; [reflexivity | ].
    split.
    + intros e ->. reflexivity.
    + intros resp ->. simpl. split; [ | split].
      * intros Hs. apply Z.eqb_neq in Hs. rewrite Hs. reflexivity.
      * intros e -> ->. reflexivity.
      * intros data -> ->. simpl. split; [reflexivity | ].
        apply parse_events_not_dict.
Qed.

Lemma fetch_events_never_raises_witness :
  exists events,
    outcome (_fetch_events net_events_timeout (auth_headers "token")
               [JDict [("id", JInt 7); ("device_type", JStr "gate")]])
      (__init__ "token" 5) = Ok events.
Proof.
  destruct (fetch_events_never_raises net_events_timeout
              (auth_headers "token")
              [JDict [("id", JInt 7); ("device_type", JStr "gate")]]
              (__init__ "token" 5)) as (events & Hev & _).
  - constructor; [eexists; reflexivity | constructor].
  - exists events. exact Hev.
Defined.

(** C9. Called with the empty device list, or with device records none of
    which has a true [id] together with a door type, [_fetch_events]
    returns the empty mapping and leaves the world as it was: in
    particular it issues no network call. *)
Theorem fetch_events_without_ids (net : env)
    (headers : list (string * string)) (devs : list json) (w : world) :
  devs = [] \/
  (Forall is_record devs /\
   Forall (fun device => ~ has_valid_id device) devs) ->
  _fetch_events net headers devs w = (Ok ∅, w) /\
  calls (after (_fetch_events net headers devs) w) = calls w.
Proof.
  intros H.
  assert (collect_device_ids devs = Ok []) as Hids.
  { destruct H as [-> | [Hrec Hno]]; [reflexivity | ].
    apply collect_device_ids_none; assumption. }
  unfold after. rewrite (fetch_events_run net headers devs [] w Hids).
  split; reflexivity.
Qed.

Lemma fetch_events_without_ids_witness :
  _fetch_events net_good (auth_headers "token") [] (__init__ "token" 5)
    = (Ok ∅, __init__ "token" 5) /\
  _fetch_events net_good (auth_headers "token")
    [JDict [("id", JInt 0); ("device_type", JStr "gate")]]
    (__init__ "token" 5)
    = (Ok ∅, __init__ "token" 5).
Proof.
  split.
  - apply (fetch_events_without_ids net_good (auth_headers "token") []
             (__init__ "token" 5)).
    left. reflexivity.
  - apply (fetch_events_without_ids net_good (auth_headers "token")
             [JDict [("id", JInt 0); ("device_type", JStr "gate")]]
             (__init__ "token" 5)).
    right. split.
    + constructor; [eexists; reflexivity | constructor].
    + constructor; [ | constructor].
      intros (d & [= <-] & Ht & _). discriminate Ht.
Defined.

(** ** Actionable devices *)

Lemma open_door_loop_records (caps : list json) :
  Forall is_record caps ->
  exists b, open_door_loop caps = Ok b /\
            (b = true <-> Exists open_door_set_up caps).
Proof.
  induction 1 as [ | v caps [c ->] _ (b & IH & Hb)]; simpl.
  - exists false. split; [reflexivity | ].
    split; [discriminate | intros H; inversion H].
  - destruct (py_eq_str (py_get "name" c) "open_door"
              && py_is_True (py_get "setup" c)) eqn:Hc.
    + exists true. split; [reflexivity | ]. split; [intros _ | reflexivity].
      apply andb_true_iff in Hc as [Hn Hs].
      apply py_eq_str_spec in Hn. apply py_is_True_spec in Hs.
      left. exists c. auto.
    + exists b. split; [exact IH | ]. rewrite Hb. split.
      * intros Hex. right. exact Hex.
      * intros Hex. inversion Hex as [? ? (c' & Heq & Hn & Hs) | ]; subst;
          [ | assumption].
        injection Heq as <-.
        apply py_eq_str_spec in Hn. apply py_is_True_spec in Hs.
        rewrite Hn, Hs in Hc. discriminate.
Qed.

(** C7, as worded, fails: the flag that is read is [setup], not [enabled].
    A door device whose open_door capability has [enabled] true and no
    [setup] is judged not actionable, and one with [enabled] false and
    [setup] true is judged actionable. *)
Lemma enabled_flag_is_not_read :
  _is_valid_intercom
    [ ("id", JInt 7); ("device_type", JStr "intercom");
      ("capabilities", JList
         [JDict [("name", JStr "open_door"); ("enabled", JBool true)]]) ]
  = Ok false /\
  _is_valid_intercom
    [ ("id", JInt 7); ("device_type", JStr "intercom");
      ("capabilities", JList
         [JDict [("name", JStr "open_door"); ("enabled", JBool false);
                 ("setup", JBool true)]]) ]
  = Ok true.
Proof. split; reflexivity. Qed.


(** * Further properties of the coordinator *)

(** ** The device fetch *)

Lemma retained_unique {A} (P : A -> Prop) (l out1 out2 : list A) :
  retained P l out1 -> retained P l out2 -> out1 = out2.
Proof.
  intros H1. revert out2.
  induction H1 as [ | x l out Hx _ IH | x l out Hx _ IH]; intros out2 H2;
    inversion H2; subst; try contradiction; auto.
  f_equal. auto.
Qed.

(** X1. Answered with a status other than 200 and 401, [_fetch_devices]
    raises [UpdateFailed] "API error: <status>", without reading the body as
    JSON; if reading the text of the response raises, that exception is the
    one that escapes. *)
Theorem fetch_devices_api_error (net : env)
    (headers : list (string * string)) (w : world) (resp : response) :
  session_get net (devices_request headers) = Ok resp ->
  resp_status resp <> 200 ->
  resp_status resp <> 401 ->
  outcome (_fetch_devices net headers) w =
  match resp_text resp with
  | Ok _ =>
      Raise (UpdateFailed ("API error: " +:+ str_of_int (resp_status resp)))
  | Raise e => Raise e
  end.
Proof.
  intros Hnet H200 H401. unfold _fetch_devices. unfold_m. rewrite Hnet.
  apply Z.eqb_neq in H200, H401. rewrite H200, H401.
  destruct (resp_text resp); reflexivity.
Qed.

Lemma fetch_devices_api_error_witness :
  outcome (_fetch_devices (net_of (Ok (reply 500 JNull)) (Raise TimeoutError))
             (auth_headers "token")) (__init__ "token" 5)
  = Raise (UpdateFailed "API error: 500").
Proof.
  apply (fetch_devices_api_error
           (net_of (Ok (reply 500 JNull)) (Raise TimeoutError))
           (auth_headers "token") (__init__ "token" 5) (reply 500 JNull));
    [reflexivity | discriminate | discriminate].
Defined.

(** X2. [_fetch_devices] succeeds exactly when the call is answered 200
    with a body that reads as a JSON mapping; the sequence it returns is then
    the body's device list with the elements that are not door devices
    struck out. *)
Theorem fetch_devices_succeeds_iff (net : env)
    (headers : list (string * string)) (w : world) (devs : list json) :
  outcome (_fetch_devices net headers) w = Ok devs <->
  exists resp d,
    session_get net (devices_request headers) = Ok resp /\
    resp_status resp = 200 /\
    resp_json resp = Ok (JDict d) /\
    retained door_device (payload_devices d) devs.
Proof.
  split.
  - intros Hd.
    destruct (fetch_devices_parsed net headers w devs Hd)
      as (resp & d & Hnet & Hs & Hj & Hp).
    exists resp, d. repeat split; auto.
    injection Hp as <-. apply parse_devices_retained.
  - intros (resp & d & Hnet & Hs & Hj & Hr).
    unfold _fetch_devices. unfold_m. rewrite Hnet, Hs. simpl. rewrite Hj.
    simpl. f_equal.
    eapply retained_unique; [apply parse_devices_retained | exact Hr].
Qed.

(** ** Calls and fields of a cycle *)

(** A successful cycle, in full. *)
Lemma update_data_success_world (net : env) (w : world) (devs : list json)
    (ids : list string) :
  outcome (_fetch_devices net (auth_headers (bearer_token (self w)))) w
    = Ok devs ->
  collect_device_ids devs = Ok ids ->
  let h := auth_headers (bearer_token (self w)) in
  _async_update_data net w =
  (Ok (length (objects w)),
   {| self := published devs (length (objects w)) (self w);
      objects := objects w ++
        [{| snap_devices := devs;
            snap_events :=
              match ids with
              | [] => ∅
              | _ => events_of_reply
                       (session_get net
                          (events_request h (events_params net ids)))
              end |}];
      calls := calls w ++ devices_request h :: events_calls net h ids |}).
Proof.
  intros Hd Hids. cbv zeta.
  pose proof (fetch_devices_after net (auth_headers (bearer_token (self w))) w)
    as Ha.
  unfold _async_update_data.
  unfold outcome, after in Hd, Ha.
  unfold bind at 1. unfold get_self at 1. cbv beta iota zeta.
  unfold try_except. unfold bind at 1.
  destruct (_fetch_devices net (auth_headers (bearer_token (self w))) w)
    as [r w1]. simpl in Hd, Ha. subst r w1.
  unfold bind at 1. unfold set_devices at 1. cbv beta iota.
  unfold bind at 1.
  rewrite (fetch_events_run net _ devs ids _ Hids).
  destruct ids as [ | i ids]; unfold bind, new_snapshot,
    set_last_successful_data, ret, events_calls, log_call; simpl.
  - reflexivity.
  - rewrite <- app_assoc. reflexivity.
Qed.

(** X3. A cycle issues the device call first.  When the device fetch
    raises, that is its only call.  When it succeeds, the cycle issues at
    most one more call, the events call, and issues it exactly when some
    device has an id to ask for. *)
Theorem cycle_calls (net : env) (w : world) :
  let h := auth_headers (bearer_token (self w)) in
  let w' := after (_async_update_data net) w in
  match outcome (_fetch_devices net h) w with
  | Raise _ => calls w' = calls w ++ [devices_request h]
  | Ok devs =>
      exists ids,
        collect_device_ids devs = Ok ids /\
        calls w' = calls w ++ devices_request h :: events_calls net h ids /\
        (length (events_calls net h ids) <= 1)%nat /\
        (events_calls net h ids = [] <-> ids = [])
  end.
Proof.
  cbv zeta.
  destruct (outcome (_fetch_devices net (auth_headers (bearer_token (self w)))) w)
    as [devs | err] eqn:Hd.
  - destruct (fetch_devices_parsed _ _ _ _ Hd) as (? & ? & _ & _ & _ & Hp).
    destruct (collect_device_ids_records devs (parse_devices_records _ _ Hp))
      as [ids Hids].
    exists ids. split; [exact Hids | ].
    unfold after. rewrite (update_data_success_world net w devs ids Hd Hids).
    simpl. split; [reflexivity | ].
    destruct ids; simpl; split; auto; split; intros; congruence.
  - unfold after. rewrite (update_data_failure net w err Hd). reflexivity.
Qed.

(** X4. For door devices, the ids [_fetch_events] asks for are the string
    forms of the devices' true ids, in the order of the devices; a device is
    left out exactly when its id is missing or false. *)
Theorem requested_ids_of_door_devices (devs : list json) :
  Forall door_device devs ->
  collect_device_ids devs =
  Ok (map (fun device => py_str (id_of device))
        (List.filter (fun device => py_truthy (id_of device)) devs)).
Proof.
  induction 1 as [ | device devs (d & -> & Hty) _ IH]; simpl.
  - reflexivity.
  - rewrite IH. apply is_door_type_spec in Hty. rewrite Hty, andb_true_r.
    destruct (py_truthy (py_get "id" d)); reflexivity.
Qed.

Lemma requested_ids_of_door_devices_witness :
  collect_device_ids
    [ JDict [("id", JInt 7); ("device_type", JStr "gate")];
      JDict [("device_type", JStr "intercom")];
      JDict [("id", JStr "b2"); ("device_type", JStr "intercom")] ]
  = Ok ["7"; "b2"].
Proof.
  apply (requested_ids_of_door_devices
    [ JDict [("id", JInt 7); ("device_type", JStr "gate")];
      JDict [("device_type", JStr "intercom")];
      JDict [("id", JStr "b2"); ("device_type", JStr "intercom")] ]).
  repeat constructor; eexists; (split; [reflexivity | ]); auto.
Defined.

Lemma refresh_mirrors (net : env) (st : world * option loc) :
  mirrors (fst st) ->
  mirrors (fst (refresh net st)) /\
  bearer_token (self (fst (refresh net st))) = bearer_token (self (fst st)) /\
  _update_interval (self (fst (refresh net st)))
    = _update_interval (self (fst st)).
Proof.
  destruct st as [w held]. simpl. intros Hm. unfold refresh. simpl.
  destruct (outcome (_fetch_devices net (auth_headers (bearer_token (self w)))) w)
    as [devs | err] eqn:Hd.
  - destruct (update_data_success net w devs Hd)
      as (events & w' & _ & Hrun & Hself & Hobj).
    rewrite Hrun. simpl. rewrite Hself. simpl.
    split; [ | split; reflexivity].
    unfold mirrors. rewrite Hself, Hobj. simpl.
    rewrite length_app. simpl. split; [lia | ].
    eexists. rewrite lookup_app_r, Nat.sub_diag by reflexivity.
    split; reflexivity.
  - rewrite (update_data_failure net w err Hd).
    destruct (_last_successful_data (self w)) eqn:Hl; simpl;
      (split; [ | split; reflexivity]);
      unfold mirrors in *; simpl; rewrite Hl in *; exact Hm.
Qed.

(** X5. After any number of cycles the bearer token and the update
    interval are those given to [__init__]; the retained snapshot, when
    there is one, is the newest snapshot object and its device list is the
    list held in [self.devices]; when there is none, no snapshot object
    exists and [self.devices] is empty. *)
Theorem coordinator_fields_after_run (token : string) (interval : Z)
    (nets : list env) :
  let w := fst (run nets (start token interval)) in
  bearer_token (self w) = token /\
  _update_interval (self w) = interval /\
  mirrors w.
Proof.
  cbv zeta.
  assert (forall st,
            mirrors (fst st) ->
            mirrors (fst (run nets st)) /\
            bearer_token (self (fst (run nets st)))
              = bearer_token (self (fst st)) /\
            _update_interval (self (fst (run nets st)))
              = _update_interval (self (fst st))) as Hrun.
  { induction nets as [ | net nets IH]; intros st Hm; simpl.
    - auto.
    - destruct (refresh_mirrors net st Hm) as (Hm' & Htok & Hint).
      destruct (IH _ Hm') as (Hm'' & Htok' & Hint').
      repeat split; auto; congruence. }
  destruct (Hrun (start token interval)) as (Hm & Htok & Hint).
  - unfold mirrors. simpl. auto.
  - auto.
Qed.

Lemma refresh_during_outage (token : string) (net : env)
    (st : world * option loc) :
  consistent token st ->
  device_fetch_fails token net ->
  refresh net st =
  (log_call (devices_request (auth_headers token)) (fst st), snd st).
Proof.
  destruct st as [w held]. intros (Htok & Hlast & _) [err Hfail].
  simpl in *. subst token. unfold refresh. simpl.
  rewrite (update_data_failure net w err (Hfail w)).
  destruct (_last_successful_data (self w)); simpl; congruence.
Qed.

(** X6. However long the device fetch keeps failing, the cycles change
    nothing but the log of calls: after any number of cycles, a further run
    of cycles whose device fetch raises leaves the coordinator's fields and
    the store of snapshots as they were, the caller holds the same snapshot
    (or still none), and each cycle has issued the device call and nothing
    else. *)
Theorem outage_changes_nothing (token : string) (interval : Z)
    (before outage : list env) :
  Forall (device_fetch_fails token) outage ->
  let st := run before (start token interval) in
  let st' := run outage st in
  self (fst st') = self (fst st) /\
  objects (fst st') = objects (fst st) /\
  snd st' = snd st /\
  calls (fst st') =
    calls (fst st)
    ++ repeat (devices_request (auth_headers token)) (length outage).
Proof.
  intros Hout. cbv zeta.
  assert (consistent token (run before (start token interval))) as Hst
    by apply run_consistent, start_consistent.
  generalize dependent (run before (start token interval)).
  induction Hout as [ | net outage Hnet _ IH]; intros st Hst; simpl.
  - rewrite app_nil_r. auto.
  - pose proof (refresh_during_outage token net st Hst Hnet) as Hr.
    pose proof (refresh_consistent token net st Hst) as Hst'.
    destruct (IH _ Hst') as (Hself & Hobj & Hheld & Hcalls).
    rewrite Hself, Hobj, Hheld, Hcalls, Hr. simpl.
    rewrite <- app_assoc. auto.
Qed.

Lemma outage_changes_nothing_witness :
  snd (run [net_401; net_list_body] (run [net_good] (start "token" 5)))
  = snd (run [net_good] (start "token" 5)).
Proof.
  refine (proj1 (proj2 (proj2
    (outage_changes_nothing "token" 5 [net_good] [net_401; net_list_body] _)))).
  repeat constructor; eexists; intros w; reflexivity.
Defined.

(** X26. Events are not carried over: a cycle whose device fetch succeeds
    while its events call raises, or is answered with a status other than
    200, still succeeds; the snapshot it returns and retains has this
    cycle's devices and no events at all, whatever the snapshot retained
    before held. *)
Theorem failed_events_call_empties_events (net : env) (w : world)
    (devs : list json) (ids : list string) :
  let h := auth_headers (bearer_token (self w)) in
  let rq := events_request h (events_params net ids) in
  let w' := after (_async_update_data net) w in
  outcome (_fetch_devices net h) w = Ok devs ->
  collect_device_ids devs = Ok ids ->
  ids <> [] ->
  (exists err, session_get net rq = Raise err) \/
  (exists resp, session_get net rq = Ok resp /\ resp_status resp <> 200) ->
  outcome (_async_update_data net) w = Ok (length (objects w)) /\
  objects w' !! length (objects w)
    = Some {| snap_devices := devs; snap_events := ∅ |} /\
  _last_successful_data (self w') = Some (length (objects w)).
Proof.
  cbv zeta. intros Hd Hids Hne Hfail.
  unfold outcome at 1, after.
  rewrite (update_data_success_world net w devs ids Hd Hids). simpl.
  split; [reflexivity | ]. split; [ | reflexivity].
  rewrite lookup_app_r, Nat.sub_diag by reflexivity. simpl.
  destruct ids as [ | i ids]; [destruct (Hne eq_refl) | ].
  destruct Hfail as [[err ->] | (resp & -> & Hs)]; simpl.
  - reflexivity.
  - apply Z.eqb_neq in Hs. rewrite Hs. reflexivity.
Qed.

Lemma failed_events_call_empties_events_witness :
  outcome (_async_update_data net_events_timeout) (__init__ "token" 5)
  = Ok 0%nat.
Proof.
  refine (proj1 (failed_events_call_empties_events net_events_timeout
                   (__init__ "token" 5)
                   [JDict [("id", JInt 7); ("device_type", JStr "gate")]]
                   ["7"] _ _ _ _)).
  - reflexivity.
  - reflexivity.
  - discriminate.
  - left. eexists. reflexivity.
Defined.

(** * Further properties of the parsers *)

(** X7. The mapping returned by [_parse_events] is empty exactly when the
    payload holds no event that is a mapping with a true [device_id]: a body
    that is not a mapping, a missing or misshapen "data" or "items" field,
    and a list of events without usable ids all give the empty mapping. *)
Theorem parse_events_empty_iff (data : json) :
  _parse_events data = ∅ <->
  forall ev k, ev ∈ payload_events data -> ~ carries k ev.
Proof.
  rewrite map_empty. split.
  - intros Hnone ev k Hin Hc.
    assert (is_Some (_parse_events data !! k)) as [evs Hs]
      by (apply parse_events_is_Some; eauto).
    rewrite Hnone in Hs. discriminate.
  - intros Hno k. apply eq_None_not_Some. intros Hs.
    apply parse_events_is_Some in Hs as (ev & Hin & Hc).
    exact (Hno ev k Hin Hc).
Qed.

(** X8. The sequences of the mapping split the payload's usable events:
    no key holds an empty sequence, and an event found under two keys is
    found under one key only, the keys being the same. *)
Theorem parse_events_sequences_disjoint (data : json)
    (k1 k2 : string) (evs1 evs2 : list json) (ev : json) :
  _parse_events data !! k1 = Some evs1 ->
  _parse_events data !! k2 = Some evs2 ->
  evs1 <> [] /\ evs2 <> [] /\ (ev ∈ evs1 -> ev ∈ evs2 -> k1 = k2).
Proof.
  intros H1 H2.
  apply parse_events_group in H1 as [Hr1 Hne1].
  apply parse_events_group in H2 as [Hr2 Hne2].
  repeat split; auto.
  intros Hin1 Hin2.
  apply (retained_elem_of _ _ _ ev Hr1) in Hin1 as [_ (e1 & He1 & _ & <-)].
  apply (retained_elem_of _ _ _ ev Hr2) in Hin2 as [_ (e2 & He2 & _ & <-)].
  rewrite He1 in He2. injection He2 as <-. reflexivity.
Qed.

Lemma parse_events_sequences_disjoint_witness :
  [JDict [("device_id", JInt 7)]] <> [].
Proof.
  refine (proj1 (parse_events_sequences_disjoint one_event "7" "7"
                   [JDict [("device_id", JInt 7)]]
                   [JDict [("device_id", JInt 7)]] JNull _ _));
    reflexivity.
Defined.

Lemma fold_add_event_size (l : list json) :
  forall acc : gmap string (list json),
    (size (fold_left add_event l acc) <= size acc + length l)%nat.
Proof.
  induction l as [ | ev l IH]; intros acc; simpl.
  - lia.
  - etransitivity; [apply IH | ].
    rewrite add_event_spec. destruct (event_key ev) as [k | ]; [ | lia].
    rewrite map_size_insert. destruct (acc !! k); simpl; lia.
Qed.

(** X9. The mapping never has more keys than the payload has events. *)
Theorem parse_events_size_bound (data : json) :
  (size (_parse_events data) <= length (payload_events data))%nat.
Proof.
  destruct data as [ | | | | | d]; simpl; try (rewrite map_size_empty; lia).
  etransitivity; [apply fold_add_event_size | ].
  rewrite map_size_empty. lia.
Qed.

(** X10. Parsing a list of events in two parts and joining, key by key,
    the sequences of the first part with those of the second gives what
    parsing the whole list gives. *)
Theorem parse_events_app (l1 l2 : list json) (k : string) :
  default [] (_parse_events (events_body (l1 ++ l2)) !! k) =
  default [] (_parse_events (events_body l1) !! k)
  ++ default [] (_parse_events (events_body l2) !! k).
Proof.
  rewrite !parse_events_payload. simpl payload_events.
  change (events_list _) with (l1 ++ l2) at 1.
  change (events_list [("data", JDict [("items", JList l1)])]) with l1.
  change (events_list [("data", JDict [("items", JList l2)])]) with l2.
  rewrite filter_app.
  destruct (filter _ l1) as [ | a r1]; destruct (filter _ l2) as [ | b r2];
    simpl; rewrite ?app_nil_r; reflexivity.
Qed.

(** X11. Parsing a body built from a parsed device list gives the same
    list again, and a list of door devices is returned whole; the parsed
    list is never longer than the list of the payload. *)
Theorem parse_devices_idempotent (l : list json) :
  exists out,
    _parse_devices (devices_body l) = Ok out /\
    _parse_devices (devices_body out) = Ok out /\
    (length out <= length l)%nat /\
    (Forall door_device l -> out = l).
Proof.
  exists (List.filter is_valid_device l).
  split; [reflexivity | ].
  assert (forall l', Forall door_device l' ->
            List.filter is_valid_device l' = l') as Hall.
  { induction 1 as [ | x l' Hx _ IH]; simpl; [reflexivity | ].
    apply is_valid_device_spec in Hx. rewrite Hx, IH. reflexivity. }
  split.
  - change (_parse_devices (devices_body (List.filter is_valid_device l)))
      with (Ok (List.filter is_valid_device
                  (List.filter is_valid_device l))).
    f_equal. apply Hall.
    eapply retained_Forall, retained_filter, is_valid_device_spec.
  - split; [apply List.filter_length_le | exact (Hall l)].
Qed.

(** * Properties of button.py *)

(** ** Judging a device *)

(** X12. The type test of [_is_valid_intercom] comes first: a device whose
    type is not intercom or gate is judged not actionable whatever its
    capabilities are, without an error.  For a door device, a missing
    capability list counts as empty, while capabilities that are [None], a
    number or a boolean make the function raise [TypeError]. *)
Theorem valid_intercom_edges (device : list (string * json)) :
  (is_door_type (py_get "device_type" device) = false ->
   _is_valid_intercom device = Ok false) /\
  (is_door_type (py_get "device_type" device) = true ->
   dict_get "capabilities" device = None ->
   _is_valid_intercom device = Ok false) /\
  (is_door_type (py_get "device_type" device) = true ->
   forall v, dict_get "capabilities" device = Some v ->
     (v = JNull \/ (exists b, v = JBool b) \/ (exists n, v = JInt n)) ->
     _is_valid_intercom device =
     Raise (TypeError ("'" +:+ type_name v +:+ "' object is not iterable"))).
Proof.
  unfold _is_valid_intercom, py_get_default. repeat split.
  - intros ->. reflexivity.
  - intros -> ->. reflexivity.
  - intros -> v -> [-> | [[b ->] | [n ->]]]; reflexivity.
Qed.

(** X13. The loop of [_is_valid_intercom] stops at the first open_door
    capability that is set up: what follows it is not looked at, even if it
    is not a record.  An element that is not a record and comes before any
    such capability makes the loop raise [AttributeError]. *)
Theorem open_door_loop_stops_at_first (before after_ : list json)
    (c : json) :
  Forall is_record before ->
  (open_door_set_up c ->
   open_door_loop (before ++ c :: after_) = Ok true) /\
  (~ Exists open_door_set_up before -> ~ is_record c ->
   open_door_loop (before ++ c :: after_) = Raise (no_attribute_get c)).
Proof.
  induction 1 as [ | v before [d ->] _ [IH1 IH2]]; simpl.
  - split.
    + intros (d & -> & Hn & Hs). rewrite Hn, Hs. reflexivity.
    + intros _ Hc. destruct c; try reflexivity.
      destruct Hc. eexists. reflexivity.
  - destruct (py_eq_str (py_get "name" d) "open_door"
              && py_is_True (py_get "setup" d)) eqn:Hd.
    + split; [reflexivity | ].
      intros Hno. destruct Hno. left.
      apply andb_true_iff in Hd as [Hn Hs].
      apply py_eq_str_spec in Hn. apply py_is_True_spec in Hs.
      exists d. auto.
    + split; [exact IH1 | ].
      intros Hno Hc. apply IH2; [ | exact Hc].
      intros Hex. apply Hno. right. exact Hex.
Qed.

Lemma open_door_loop_stops_at_first_witness :
  open_door_loop
    [ JDict [("name", JStr "video")];
      JDict [("name", JStr "open_door"); ("setup", JBool true)];
      JInt 5 ]
  = Ok true.
Proof.
  refine (proj1 (open_door_loop_stops_at_first
                   [JDict [("name", JStr "video")]] [JInt 5]
                   (JDict [("name", JStr "open_door"); ("setup", JBool true)])
                   _) _).
  - constructor; [eexists; reflexivity | constructor].
  - eexists. split; [reflexivity | split; reflexivity].
Defined.

(** ** Creating the buttons *)

Lemma buttons_loop_retained (devs buttons : list json) :
  buttons_loop devs = Ok buttons -> retained actionable devs buttons.
Proof.
  revert buttons. induction devs as [ | device devs IH]; intros buttons; simpl.
  - intros [= <-]. constructor.
  - destruct device as [ | | | | | d];
      try (intros Hb; apply retained_drop; [ | apply IH, Hb];
           intros (d' & [=] & _)).
    destruct (_is_valid_intercom d) as [valid | e] eqn:Hv; [ | discriminate].
    destruct (buttons_loop devs) as [bs | e]; [ | discriminate].
    intros [= <-]. destruct valid.
    + apply retained_keep; [exists d; auto | apply IH; reflexivity].
    + apply retained_drop; [ | apply IH; reflexivity].
      intros (d' & [= <-] & Hv'). congruence.
Qed.

(** X14. When [async_setup_entry] completes, the buttons it hands over are
    those of the snapshot's devices with exactly the devices not judged
    actionable struck out, in the order of the snapshot; without data it
    hands over none. *)
Theorem setup_entry_buttons (s : snapshot) (buttons : list json) :
  async_setup_entry (Some s) = Ok buttons ->
  retained actionable (snap_devices s) buttons /\
  sublist buttons (snap_devices s) /\
  async_setup_entry None = Ok [].
Proof.
  unfold async_setup_entry. intros Hb.
  assert (retained actionable (snap_devices s) buttons) as Hr.
  { destruct (snap_devices s) as [ | device devs] eqn:Hdevs.
    - simpl in Hb. injection Hb as <-. constructor.
    - simpl negb in Hb. cbv iota in Hb. apply buttons_loop_retained, Hb. }
  split; [exact Hr | ]. split; [eapply retained_sublist, Hr | reflexivity].
Qed.

Lemma setup_entry_buttons_witness :
  retained actionable
    [ JDict [("id", JInt 7); ("device_type", JStr "gate")];
      JDict [("id", JInt 8); ("device_type", JStr "gate");
             ("capabilities", JList
                [JDict [("name", JStr "open_door"); ("setup", JBool true)]])] ]
    [ JDict [("id", JInt 8); ("device_type", JStr "gate");
             ("capabilities", JList
                [JDict [("name", JStr "open_door"); ("setup", JBool true)]])] ].
Proof.
  refine (proj1 (setup_entry_buttons
    {| snap_devices :=
         [ JDict [("id", JInt 7); ("device_type", JStr "gate")];
           JDict [("id", JInt 8); ("device_type", JStr "gate");
                  ("capabilities", JList
                     [JDict [("name", JStr "open_door");
                             ("setup", JBool true)]])] ];
       snap_events := ∅ |} _ _)).
  reflexivity.
Defined.

Lemma buttons_loop_raises (devs : list json) (d : list (string * json))
    (e : exn) :
  JDict d ∈ devs -> _is_valid_intercom d = Raise e ->
  exists e', buttons_loop devs = Raise e'.
Proof.
  intros Hin Hv. induction devs as [ | device devs IH]; [inversion Hin | ].
  apply elem_of_cons in Hin as [<- | Hin]; simpl.
  - rewrite Hv. eauto.
  - destruct (IH Hin) as [e' He'].
    destruct device as [ | | | | | d']; eauto.
    destruct (_is_valid_intercom d'); [ | eauto].
    rewrite He'. eauto.
Qed.

Lemma valid_intercom_total (d : list (string * json)) (caps : list json) :
  py_get_default "capabilities" (JList []) d = JList caps ->
  Forall is_record caps ->
  exists b, _is_valid_intercom d = Ok b.
Proof.
  intros Hcaps Hrec. unfold _is_valid_intercom. rewrite Hcaps. simpl.
  destruct (is_door_type (py_get "device_type" d)); simpl; [ | eauto].
  destruct (open_door_loop_records caps Hrec) as (b & Hb & _). eauto.
Qed.

Lemma buttons_loop_well_shaped (devs : list json) :
  Forall well_shaped devs -> exists buttons, buttons_loop devs = Ok buttons.
Proof.
  induction 1 as [ | device devs (d & caps & -> & Hcaps & Hrec) _ [bs IH]];
    simpl.
  - eauto.
  - destruct (valid_intercom_total d caps Hcaps Hrec) as [b Hb].
    rewrite Hb, IH. eauto.
Qed.

(** X15. One device is enough to stop all buttons: if [_is_valid_intercom]
    raises on some device record of the snapshot, [async_setup_entry]
    raises too and hands over no button.  When every device is a record
    whose capabilities, if any, are a list of records, it completes. *)
Theorem setup_entry_all_or_nothing (s : snapshot) :
  (forall d e, JDict d ∈ snap_devices s -> _is_valid_intercom d = Raise e ->
     exists e', async_setup_entry (Some s) = Raise e') /\
  (Forall well_shaped (snap_devices s) ->
     exists buttons, async_setup_entry (Some s) = Ok buttons).
Proof.
  unfold async_setup_entry. split.
  - intros d e Hin Hv.
    destruct (snap_devices s) as [ | device devs] eqn:Hdevs;
      [inversion Hin | ].
    simpl negb. cbv iota. eapply buttons_loop_raises; eauto.
  - intros Hall. destruct (snap_devices s) as [ | device devs] eqn:Hdevs.
    + simpl. eauto.
    + simpl negb. cbv iota. apply buttons_loop_well_shaped, Hall.
Qed.

(** ** The judgement, in full *)

Lemma open_door_set_up_test (d : list (string * json)) :
  py_eq_str (py_get "name" d) "open_door" && py_is_True (py_get "setup" d)
    = true <-> open_door_set_up (JDict d).
Proof.
  rewrite andb_true_iff, py_eq_str_spec, py_is_True_spec. split.
  - intros [Hn Hs]. exists d. auto.
  - intros (d' & [= <-] & Hn & Hs). auto.
Qed.

Lemma open_door_loop_true (caps : list json) :
  open_door_loop caps = Ok true <->
  exists before c after_,
    caps = before ++ c :: after_ /\
    Forall is_record before /\ open_door_set_up c.
Proof.
  induction caps as [ | v caps IH].
  - split; [discriminate | ].
    intros (before & c & after_ & H & _). destruct before; discriminate.
  - assert ((exists before c after_,
               v :: caps = before ++ c :: after_ /\
               Forall is_record before /\ open_door_set_up c) <->
            open_door_set_up v \/
            (is_record v /\
             exists before c after_,
               caps = before ++ c :: after_ /\
               Forall is_record before /\ open_door_set_up c)) as Hsplit.
    { split.
      - intros ([ | x before] & c & after_ & H & Hrec & Hc);
          injection H as -> ->.
        + left. exact Hc.
        + right. inversion Hrec; subst. split; [assumption | ]. eauto 6.
      - intros [Hv | (Hv & before & c & after_ & -> & Hrec & Hc)].
        + exists [], v, caps. auto.
        + exists (v :: before), c, after_. auto. }
    rewrite Hsplit. clear Hsplit.
    destruct v as [ | | | | | d];
      try (simpl; split; [discriminate | ];
           intros [(d' & [=] & _) | [(d' & [=]) _]]).
    simpl.
    destruct (py_eq_str (py_get "name" d) "open_door"
              && py_is_True (py_get "setup" d)) eqn:Hd.
    + apply open_door_set_up_test in Hd. split; auto.
    + rewrite IH. split.
      * intros H. right. split; [eexists; reflexivity | exact H].
      * intros [Hv | [_ H]]; [ | exact H].
        apply open_door_set_up_test in Hv. congruence.
Qed.

Lemma open_door_loop_false (caps : list json) :
  open_door_loop caps = Ok false <->
  Forall is_record caps /\ ~ Exists open_door_set_up caps.
Proof.
  induction caps as [ | v caps IH].
  - simpl. split; [ | reflexivity].
    intros _. split; [constructor | intros H; inversion H].
  - destruct v as [ | | | | | d];
      try (simpl; split; [discriminate | ];
           intros [Hrec _]; inversion Hrec as [ | ? ? Hv _];
           destruct Hv as [d' Hv]; discriminate Hv).
    simpl.
    destruct (py_eq_str (py_get "name" d) "open_door"
              && py_is_True (py_get "setup" d)) eqn:Hd.
    + split; [discriminate | ]. intros [_ Hno]. destruct Hno. left.
      apply open_door_set_up_test, Hd.
    + rewrite IH. split.
      * intros [Hrec Hno]. split.
        -- constructor; [eexists; reflexivity | exact Hrec].
        -- intros Hex. inversion Hex as [? ? Hv | ? ? Hv]; subst.
           ++ apply open_door_set_up_test in Hv. congruence.
           ++ exact (Hno Hv).
      * intros [Hrec Hno]. inversion Hrec; subst. split; [assumption | ].
        intros Hex. apply Hno. right. exact Hex.
Qed.

(** A loop over a dict or over a string visits strings only, so a loop that
    meets a record runs over a list. *)
Lemma py_iter_list (v : json) (caps : list json) (c : json) :
  py_iter v = Ok caps -> c ∈ caps -> is_record c ->
  v = JList caps.
Proof.
  destruct v as [ | | | s | l | d]; simpl; try discriminate.
  - intros [= <-] Hin [dc ->]. exfalso.
    induction s as [ | a s IH]; simpl in Hin; [inversion Hin | ].
    apply elem_of_cons in Hin as [[=] | Hin]. exact (IH Hin).
  - intros [= <-]. reflexivity.
  - intros [= <-] Hin [dc ->]. exfalso.
    apply list_elem_of_In, in_map_iff in Hin as (kv & [=] & _).
Qed.

(** C7, amended. [_is_valid_intercom] judges a device actionable exactly
    when its type is intercom or gate and its capabilities are a list in
    which some entry is named open_door with [setup] being [True], every
    entry before that one being a record; [enabled] is never read.  It
    judges the device not actionable exactly when the type is another one,
    or the capabilities hold records only (or nothing) and none of them is
    such an entry.  In the cases left (a door device whose capabilities
    cannot be looped over, or in which an entry that is not a record comes
    before any such entry) it raises and gives no judgement.  Whenever
    [async_setup_entry] completes, a button is created for a device exactly
    when the device is in the snapshot and is judged actionable. *)
Theorem valid_intercom_reads_setup (device : list (string * json)) :
  let door :=
    py_get "device_type" device = JStr DEVICE_TYPE_INTERCOM \/
    py_get "device_type" device = JStr DEVICE_TYPE_GATE in
  let capabilities := py_get_default "capabilities" (JList []) device in
  (_is_valid_intercom device = Ok true <->
   door /\
   exists before c after_,
     capabilities = JList (before ++ c :: after_) /\
     Forall is_record before /\ open_door_set_up c) /\
  (_is_valid_intercom device = Ok false <->
   ~ door \/
   exists caps,
     py_iter capabilities = Ok caps /\
     Forall is_record caps /\ ~ Exists open_door_set_up caps) /\
  (forall s buttons, async_setup_entry (Some s) = Ok buttons ->
     (JDict device ∈ buttons <->
      JDict device ∈ snap_devices s /\ _is_valid_intercom device = Ok true)).
Proof.
  cbv zeta. split; [ | split].
  - unfold _is_valid_intercom. rewrite <- is_door_type_spec.
    destruct (is_door_type (py_get "device_type" device)); simpl.
    + destruct (py_iter (py_get_default "capabilities" (JList []) device))
        as [caps | e] eqn:Hit.
      * rewrite open_door_loop_true. split.
        -- intros (before & c & after_ & -> & Hrec & Hc).
           split; [reflexivity | ]. exists before, c, after_.
           split; [ | auto].
           apply (py_iter_list _ _ c Hit).
           ++ apply elem_of_app. right. left.
           ++ destruct Hc as (dc & -> & _). eexists. reflexivity.
        -- intros (_ & before & c & after_ & Hcaps & Hrec & Hc).
           rewrite Hcaps in Hit. injection Hit as <-. eauto 6.
      * split; [discriminate | ].
        intros (_ & before & c & after_ & Hcaps & _).
        rewrite Hcaps in Hit. discriminate.
    + split; [discriminate | intros [[=] _]].
  - unfold _is_valid_intercom. rewrite <- is_door_type_spec.
    destruct (is_door_type (py_get "device_type" device)); simpl.
    + destruct (py_iter (py_get_default "capabilities" (JList []) device))
        as [caps | e].
      * rewrite open_door_loop_false. split.
        -- intros H. right. eauto.
        -- intros [Hn | (caps' & [= <-] & H)]; [congruence | exact H].
      * split; [discriminate | ].
        intros [Hn | (caps' & [=] & _)]. congruence.
    + split; [ | reflexivity]. intros _. left. discriminate.
  - intros s buttons Hb.
    assert (retained actionable (snap_devices s) buttons) as Hr.
    { unfold async_setup_entry in Hb.
      destruct (snap_devices s) as [ | dev devs].
      - simpl in Hb. injection Hb as <-. constructor.
      - simpl negb in Hb. cbv iota in Hb. apply buttons_loop_retained, Hb. }
    rewrite (retained_elem_of _ _ _ (JDict device) Hr). split.
    + intros [Hin (d & [= <-] & Hv)]. auto.
    + intros [Hin Hv]. split; [exact Hin | exists device; auto].
Qed.

(** ** The button of a device *)

Lemma py_get_default_present (key : string) (dflt : json)
    (d : list (string * json)) :
  py_get key d <> JNull -> py_get_default key dflt d = py_get key d.
Proof.
  unfold py_get, py_get_default. destruct (dict_get key d); congruence.
Qed.

(** X16. The button of a door device with a true id: for a gate it has
    the gate icon, the model "Ворота" and a name ending in " - Открыть
    ворота"; for an intercom it has the door icon, the model "Домофон" and
    a name ending in " - Открыть дверь".  The type assumed for a device
    without a type, and the model names kept for other types, are never
    used for such a device. *)
Theorem button_of_door_device (d : list (string * json)) :
  door_device (JDict d) ->
  py_truthy (py_get "id" d) = true ->
  let button := HartkeyOpenButton__init__ d in
  let name := py_str (device_name d (py_get "id" d)) in
  (py_get "device_type" d = JStr DEVICE_TYPE_GATE /\
   _attr_icon button = Some "mdi:gate" /\
   model <$> _attr_device_info button = Some (JStr "Ворота") /\
   _attr_name button = Some (name +:+ " - Открыть ворота")) \/
  (py_get "device_type" d = JStr DEVICE_TYPE_INTERCOM /\
   _attr_icon button = Some "mdi:door-open" /\
   model <$> _attr_device_info button = Some (JStr "Домофон") /\
   _attr_name button = Some (name +:+ " - Открыть дверь")).
Proof.
  intros (d' & [= <-] & Hty) Hid. cbv zeta.
  unfold HartkeyOpenButton__init__, _get_device_model_name. rewrite Hid.
  simpl negb. cbv iota.
  rewrite py_get_default_present by (destruct Hty as [-> | ->]; discriminate).
  destruct Hty as [-> | ->]; [right | left]; simpl; auto.
Qed.

Lemma button_of_door_device_witness :
  _attr_icon (HartkeyOpenButton__init__
                [("id", JInt 7); ("device_type", JStr "gate")])
  = Some "mdi:gate".
Proof.
  destruct (button_of_door_device
              [("id", JInt 7); ("device_type", JStr "gate")])
    as [(_ & Hicon & _) | (Hty & _)].
  - eexists. split; [reflexivity | right; reflexivity].
  - reflexivity.
  - exact Hicon.
  - discriminate Hty.
Defined.

(** X17. The name given to a device is never empty or false: it is the
    description when that is true, else the user's name when that is true,
    else the company's name when that is true, else "Домофон " followed by
    the id. *)
Theorem device_name_is_true (device : list (string * json))
    (device_id : json) :
  let name := device_name device device_id in
  let description := py_get "description" device in
  let by_user := py_get "name_by_user" device in
  let by_company := py_get "name_by_company" device in
  py_truthy name = true /\
  (py_truthy description = true -> name = description) /\
  (py_truthy description = false -> py_truthy by_user = true ->
   name = by_user) /\
  (py_truthy description = false -> py_truthy by_user = false ->
   py_truthy by_company = true -> name = by_company) /\
  (py_truthy description = false -> py_truthy by_user = false ->
   py_truthy by_company = false ->
   name = JStr ("Домофон " +:+ py_str device_id)).
Proof.
  cbv zeta. unfold device_name, py_or.
  destruct (py_truthy (py_get "description" device)) eqn:Hd;
    destruct (py_truthy (py_get "name_by_user" device)) eqn:Hu;
    destruct (py_truthy (py_get "name_by_company" device)) eqn:Hc;
    simpl; rewrite ?Hd, ?Hu, ?Hc; simpl; rewrite ?Hu, ?Hc;
    repeat split; intros; try congruence; reflexivity.
Qed.

Lemma string_app_inv_tail (s1 s2 t : string) :
  s1 +:+ t = s2 +:+ t -> s1 = s2.
Proof.
  assert (forall a b, String.length (a +:+ b)
                      = (String.length a + String.length b)%nat) as Hlen.
  { induction a as [ | c a IH]; intros b; [reflexivity | ].
    change (S (String.length (a +:+ b))
            = S (String.length a + String.length b)).
    rewrite IH. reflexivity. }
  revert s2. induction s1 as [ | c s1 IH]; intros [ | c2 s2] H.
  - reflexivity.
  - apply (f_equal String.length) in H. rewrite !Hlen in H. simpl in H. lia.
  - apply (f_equal String.length) in H. rewrite !Hlen in H. simpl in H. lia.
  - change (String c (s1 +:+ t) = String c2 (s2 +:+ t)) in H.
    injection H as -> H. f_equal. apply IH, H.
Qed.

(** X18. Two buttons with the same unique id belong to devices whose ids
    have the same string form; for ids that are strings, to the same id. *)
Theorem unique_id_tells_ids_apart (d1 d2 : list (string * json))
    (uid : string) :
  _attr_unique_id (HartkeyOpenButton__init__ d1) = Some uid ->
  _attr_unique_id (HartkeyOpenButton__init__ d2) = Some uid ->
  py_str (py_get "id" d1) = py_str (py_get "id" d2) /\
  (forall s1 s2, py_get "id" d1 = JStr s1 -> py_get "id" d2 = JStr s2 ->
     s1 = s2).
Proof.
  unfold HartkeyOpenButton__init__.
  destruct (py_truthy (py_get "id" d1)); [ | discriminate].
  destruct (py_truthy (py_get "id" d2)); [ | discriminate].
  simpl. intros [= <-] [= H]. apply string_app_inv_tail in H.
  split; [congruence | ].
  intros s1 s2 H1 H2. rewrite H1, H2 in H. exact (eq_sym H).
Qed.

Lemma unique_id_tells_ids_apart_witness :
  py_str (py_get "id" [("id", JInt 7)])
  = py_str (py_get "id" [("id", JStr "7")]).
Proof.
  refine (proj1 (unique_id_tells_ids_apart
                   [("id", JInt 7)] [("id", JStr "7")] "7_open" _ _));
    reflexivity.
Defined.

(** ** Pressing a button *)

(** X19. The id of a device plays no part in judging it, so a device with
    a missing or false id can get a button.  The constructor leaves that
    button without icon, name, unique id and device info, and pressing it
    does nothing: no call, no refresh, no error.  Unless the id is [None]
    the button still reports itself available once data is there. *)
Theorem button_without_id (d : list (string * json)) :
  (forall v, _is_valid_intercom (("id", v) :: d) = _is_valid_intercom d) /\
  (py_truthy (py_get "id" d) = false ->
   let button := HartkeyOpenButton__init__ d in
   _attr_icon button = None /\ _attr_name button = None /\
   _attr_unique_id button = None /\ _attr_device_info button = None /\
   (forall session_post async_request_refresh w,
      async_press session_post async_request_refresh button w
      = {| press_result := Ok tt; press_posts := []; press_world := w |}) /\
   (forall r, py_get "id" d <> JNull -> available button (Some r) = true)).
Proof.
  split; [reflexivity | ].
  intros Hid. cbv zeta.
  unfold async_press, available, HartkeyOpenButton__init__. rewrite Hid.
  simpl. rewrite Hid. simpl. repeat split.
  intros r Hn. destruct (py_get "id" d); try reflexivity. congruence.
Qed.

(** X20. Pressing a button with a true id issues one POST to the open URL
    of that id, with the coordinator's token.  The refresh of the
    coordinator is run exactly when the call is answered 200; answered
    anything else with a readable text, or when the call fails with a
    network error, the press ends normally and leaves the world as it was. *)
Theorem press_refreshes_only_on_200
    (session_post : post_request -> result response)
    (async_request_refresh : M unit) (button : HartkeyOpenButton)
    (w : world) :
  py_truthy (self_device_id button) = true ->
  let rq := open_request (bearer_token (self w)) (self_device_id button) in
  let out := async_press session_post async_request_refresh button w in
  press_posts out = [rq] /\
  (forall resp, session_post rq = Ok resp -> resp_status resp = 200 ->
     press_world out = after async_request_refresh w /\
     (forall u, outcome async_request_refresh w = Ok u ->
        press_result out = Ok tt)) /\
  (forall resp t, session_post rq = Ok resp -> resp_status resp <> 200 ->
     resp_text resp = Ok t ->
     press_result out = Ok tt /\ press_world out = w) /\
  (forall msg, session_post rq = Raise (ClientError msg) ->
     press_result out = Ok tt /\ press_world out = w).
Proof.
  intros Hid. cbv zeta. unfold async_press, press_try. rewrite Hid.
  simpl negb. cbv iota. unfold_m. split; [reflexivity | ].
  split; [ | split].
  - intros resp -> ->. simpl.
    destruct (async_request_refresh w) as [[[] | e] w'] eqn:Hr; simpl.
    + split; [reflexivity | ]. intros _ _. reflexivity.
    + split; [destruct e; reflexivity | ]. intros u [=].
  - intros resp t -> Hs ->. apply Z.eqb_neq in Hs. rewrite Hs.
    split; reflexivity.
  - intros msg ->. split; reflexivity.
Qed.

Lemma press_refreshes_only_on_200_witness :
  press_posts
    (async_press (fun _ => Ok (reply 500 JNull)) (ret tt) gate_button
       (__init__ "token" 5))
  = [open_request "token" (JInt 7)].
Proof.
  refine (proj1 (press_refreshes_only_on_200
                   (fun _ => Ok (reply 500 JNull)) (ret tt) gate_button
                   (__init__ "token" 5) _)).
  reflexivity.
Defined.

(** X21. A press with a true id whose call raises anything but a network
    error (the time bound of ten seconds among them), or whose response
    other than 200 has a text whose reading raises anything but a network
    error, does not end normally: the second handler names [asyncio],
    which button.py does not import, so the press raises [NameError] and
    leaves the world as it was.  A network error raised by the reading of
    the text is taken by the first handler and the press ends normally.
    [NameError] is the only exception a press ever raises. *)
Theorem press_timeout_raises_name_error
    (session_post : post_request -> result response)
    (async_request_refresh : M unit) (button : HartkeyOpenButton)
    (w : world) (err : exn) :
  py_truthy (self_device_id button) = true ->
  (forall msg, err <> ClientError msg) ->
  let rq := open_request (bearer_token (self w)) (self_device_id button) in
  let out := async_press session_post async_request_refresh button w in
  (session_post rq = Raise err ->
   press_result out = Raise name_error_asyncio /\ press_world out = w) /\
  (forall resp, session_post rq = Ok resp -> resp_status resp <> 200 ->
     resp_text resp = Raise err ->
     press_result out = Raise name_error_asyncio /\ press_world out = w) /\
  (forall resp msg, session_post rq = Ok resp -> resp_status resp <> 200 ->
     resp_text resp = Raise (ClientError msg) ->
     press_result out = Ok tt /\ press_world out = w) /\
  (forall e, press_result out = Raise e -> e = name_error_asyncio).
Proof.
  intros Hid Hnot. cbv zeta. unfold async_press, press_try. rewrite Hid.
  simpl negb. cbv iota. unfold_m. split; [ | split; [ | split]].
  - intros ->. destruct err; try (split; reflexivity).
    destruct (Hnot msg eq_refl).
  - intros resp -> Hs ->. apply Z.eqb_neq in Hs. rewrite Hs.
    destruct err; try (split; reflexivity).
    destruct (Hnot msg eq_refl).
  - intros resp msg -> Hs ->. apply Z.eqb_neq in Hs. rewrite Hs.
    split; reflexivity.
  - intros e.
    destruct (session_post _) as [resp | e0]; simpl.
    + destruct (resp_status resp =? 200).
      * destruct (async_request_refresh w) as [[u | e1] w1]; simpl;
          [discriminate | ].
        destruct e1; simpl; intros [= <-]; reflexivity.
      * destruct (resp_text resp) as [t | e1]; simpl; [discriminate | ].
        destruct e1; simpl; intros [= <-]; reflexivity.
    + destruct e0; simpl; intros [= <-]; reflexivity.
Qed.

Lemma press_timeout_raises_name_error_witness :
  press_result
    (async_press (fun _ => Raise TimeoutError) (ret tt) gate_button
       (__init__ "token" 5))
  = Raise name_error_asyncio.
Proof.
  refine (proj1 (proj1 (press_timeout_raises_name_error
                   (fun _ => Raise TimeoutError) (ret tt) gate_button
                   (__init__ "token" 5) TimeoutError _ _) _)).
  - reflexivity.
  - discriminate.
  - reflexivity.
Defined.

(** * Properties of config_flow.py *)

Lemma dict_get_set_eq (key : string) (v : json) (d : list (string * json)) :
  dict_get key (dict_set key v d) = Some v.
Proof.
  induction d as [ | [k x] d IH]; simpl.
  - rewrite String.eqb_refl. reflexivity.
  - destruct (String.eqb k key) eqn:Hk; simpl; rewrite Hk; auto.
Qed.

Lemma dict_get_set_ne (key key' : string) (v : json)
    (d : list (string * json)) :
  key <> key' -> dict_get key' (dict_set key v d) = dict_get key' d.
Proof.
  intros Hne. induction d as [ | [k x] d IH]; simpl.
  - apply String.eqb_neq in Hne. rewrite Hne. reflexivity.
  - destruct (String.eqb k key) eqn:Hk; simpl.
    + apply String.eqb_eq in Hk. subst k.
      apply String.eqb_neq in Hne. rewrite Hne. reflexivity.
    + destruct (String.eqb k key'); auto.
Qed.

Ltac flow_crush :=
  repeat match goal with
  | H : exists _, _ |- _ => destruct H
  | H : _ /\ _ |- _ => destruct H
  | H : _ \/ _ |- _ => destruct H
  | H : Ok _ = Ok _ |- _ => injection H as H; try subst
  | H : Raise _ = Raise _ |- _ => injection H as H; try subst
  | H : Failed _ = Failed _ |- _ => injection H as H; try subst
  | H : Escaped _ = Escaped _ |- _ => injection H as H; try subst
  end; try discriminate; try lia; try congruence.

(** X22. [validate_auth] makes the device call of the coordinator with
    the token under test and sorts the outcome: it returns exactly when the
    answer is 200, raises [InvalidAuth] exactly when it is 401, raises
    [CannotConnect] exactly on any other status and on a network error, and
    lets every other exception through unchanged. *)
Theorem validate_auth_classifies (session_get : request -> result response)
    (bearer_token : json) :
  let answer :=
    session_get (devices_request (auth_headers (py_str bearer_token))) in
  let verdict := validate_auth session_get bearer_token in
  (verdict = Done true <->
   exists resp, answer = Ok resp /\ resp_status resp = 200) /\
  (verdict = Failed InvalidAuth <->
   exists resp, answer = Ok resp /\ resp_status resp = 401) /\
  (verdict = Failed CannotConnect <->
   (exists resp, answer = Ok resp /\
      resp_status resp <> 200 /\ resp_status resp <> 401) \/
   (exists msg, answer = Raise (ClientError msg))) /\
  (forall e, verdict = Failed (Escaped e) <->
     answer = Raise e /\ forall msg, e <> ClientError msg).
Proof.
  cbv zeta. unfold validate_auth.
  destruct (session_get _) as [resp | err].
  - destruct (resp_status resp =? 200) eqn:H200;
      [apply Z.eqb_eq in H200
      | apply Z.eqb_neq in H200;
        destruct (resp_status resp =? 401) eqn:H401;
        [apply Z.eqb_eq in H401 | apply Z.eqb_neq in H401]];
      (split; [ | split; [ | split; [ | intros e]]]); split; intros H;
      flow_crush; eauto.
  - destruct err;
      (split; [ | split; [ | split; [ | intros e]]]); split; intros H;
      flow_crush; eauto.
    all: try (split; [reflexivity | discriminate]).
Qed.

(** X23. The user step creates the entry exactly when the validation of
    the submitted input succeeds.  The entry then always carries an update
    interval: the submitted one, or 5 when none was submitted.  Every other
    key, the token among them, is stored as submitted, and the setup of the
    integration reads that same interval.  When the validation fails the
    form is shown again with the error of the failure, and a missing token
    counts as an unknown error. *)
Theorem user_step_entry (session_get : request -> result response)
    (user_input : list (string * json)) :
  let result := async_step_user session_get (Some user_input) in
  (forall b, validate_input session_get user_input = Done b ->
     exists data,
       result = CreateEntry "Hartkey" data /\
       dict_get CONF_UPDATE_INTERVAL data =
         Some (default (JInt 5) (dict_get CONF_UPDATE_INTERVAL user_input)) /\
       (forall key, key <> CONF_UPDATE_INTERVAL ->
          dict_get key data = dict_get key user_input) /\
       setup_update_interval data =
         default (JInt 5) (dict_get CONF_UPDATE_INTERVAL user_input)) /\
  (forall e, validate_input session_get user_input = Failed e ->
     result = ShowForm "user" (base_error e)) /\
  (dict_get CONF_BEARER_TOKEN user_input = None ->
     result = ShowForm "user" [("base", "unknown")]).
Proof.
  cbv zeta. unfold async_step_user. split; [ | split].
  - intros b ->.
    destruct (dict_get CONF_UPDATE_INTERVAL user_input) as [v | ] eqn:Hi.
    + exists user_input. simpl. repeat split; auto.
      unfold setup_update_interval, py_get_default. rewrite Hi. reflexivity.
    + eexists. split; [reflexivity | ]. simpl.
      split; [apply dict_get_set_eq | ].
      split; [intros key Hk; apply dict_get_set_ne; congruence | ].
      unfold setup_update_interval, py_get_default.
      rewrite dict_get_set_eq. reflexivity.
  - intros e ->. reflexivity.
  - intros Hnone. unfold validate_input, py_item.
    change "bearer_token" with CONF_BEARER_TOKEN. rewrite Hnone. reflexivity.
Qed.

(** X24. The reauthentication step writes to the entry only when the
    validation succeeds and the entry is found, and what it writes is the
    submitted input as it is: nothing of the old data is kept.  So when the
    input holds no update interval, as with the form of this step, the
    setup of the integration falls back to the default interval of 5.  In
    every other case nothing is written and the form is shown again. *)
Theorem reauth_step_replaces_data
    (session_get : request -> result response) (existing_entry : bool)
    (user_input : list (string * json)) :
  let out :=
    async_step_reauth_confirm session_get existing_entry (Some user_input) in
  (forall b, validate_input session_get user_input = Done b ->
     existing_entry = true ->
     step out = AbortFlow "reauth_successful" /\
     entry_update out = Some user_input /\
     (dict_get CONF_UPDATE_INTERVAL user_input = None ->
      setup_update_interval user_input = JInt DEFAULT_UPDATE_INTERVAL)) /\
  (forall b, validate_input session_get user_input = Done b ->
     existing_entry = false ->
     out = {| step := ShowForm "reauth_confirm" []; entry_update := None |}) /\
  (forall e, validate_input session_get user_input = Failed e ->
     out = {| step := ShowForm "reauth_confirm" (base_error e);
              entry_update := None |}).
Proof.
  cbv zeta. unfold async_step_reauth_confirm. split; [ | split].
  - intros b -> ->. repeat split.
    intros Hnone. unfold setup_update_interval, py_get_default.
    rewrite Hnone. reflexivity.
  - intros b -> ->. reflexivity.
  - intros e ->. reflexivity.
Qed.

(** X25. The options step, given input and entry data that hold what it
    looks up: when the submitted token equals the stored one no validation
    call is made, whatever the network would answer, and the entry is
    updated; when it differs the entry is updated exactly when the
    validation succeeds, and otherwise the form is shown with the error and
    nothing is written.  The data written has the submitted token and
    interval, and every other key of the entry data as it was. *)
Theorem options_step_update (session_get : request -> result response)
    (entry_data user_input : list (string * json))
    (new_token old_token interval : json) :
  dict_get CONF_BEARER_TOKEN user_input = Some new_token ->
  dict_get CONF_BEARER_TOKEN entry_data = Some old_token ->
  dict_get CONF_UPDATE_INTERVAL user_input = Some interval ->
  exists new_data,
    let updated :=
      Ok {| step := CreateEntry "" []; entry_update := Some new_data |} in
    dict_get CONF_BEARER_TOKEN new_data = Some new_token /\
    dict_get CONF_UPDATE_INTERVAL new_data = Some interval /\
    (forall key, key <> CONF_BEARER_TOKEN -> key <> CONF_UPDATE_INTERVAL ->
       dict_get key new_data = dict_get key entry_data) /\
    (py_eq new_token old_token = true ->
     forall any_get,
       async_step_init any_get entry_data (Some user_input) = updated) /\
    (py_eq new_token old_token = false ->
     (forall b, validate_auth session_get new_token = Done b ->
        async_step_init session_get entry_data (Some user_input) = updated) /\
     (forall e, validate_auth session_get new_token = Failed e ->
        async_step_init session_get entry_data (Some user_input) =
        Ok {| step := ShowForm "init" (base_error e);
              entry_update := None |})).
Proof.
  intros Hnew Hold Hint.
  exists (dict_set CONF_UPDATE_INTERVAL interval
            (dict_set CONF_BEARER_TOKEN new_token entry_data)).
  cbv zeta. split; [ | split; [ | split; [ | split]]].
  - rewrite dict_get_set_ne by discriminate. apply dict_get_set_eq.
  - apply dict_get_set_eq.
  - intros key Hk1 Hk2. rewrite !dict_get_set_ne by congruence. reflexivity.
  - intros Heq any_get. unfold async_step_init, py_item.
    rewrite Hnew, Hold, Heq, Hint. reflexivity.
  - intros Hne. split.
    + intros b Hv. unfold async_step_init, py_item.
      rewrite Hnew, Hold, Hne, Hv, Hint. reflexivity.
    + intros e Hv. unfold async_step_init, py_item.
      rewrite Hnew, Hold, Hne, Hv. destruct e; reflexivity.
Qed.

Lemma options_step_update_witness :
  exists new_data,
    async_step_init (fun _ => Raise TimeoutError)
      [("bearer_token", JStr "t"); ("update_interval", JInt 5)]
      (Some [("bearer_token", JStr "t"); ("update_interval", JInt 30)])
    = Ok {| step := CreateEntry "" []; entry_update := Some new_data |} /\
    dict_get CONF_UPDATE_INTERVAL new_data = Some (JInt 30).
Proof.
  destruct (options_step_update (fun _ => Raise TimeoutError)
              [("bearer_token", JStr "t"); ("update_interval", JInt 5)]
              [("bearer_token", JStr "t"); ("update_interval", JInt 30)]
              (JStr "t") (JStr "t") (JInt 30) eq_refl eq_refl eq_refl)
    as (new_data & _ & Hint & _ & Hsame & _).
  exists new_data. split; [ | exact Hint].
  exact (Hsame eq_refl (fun _ => Raise TimeoutError)).
Defined.
